(** * YAML tag registration helpers: normalisation, dictionary wrapper, tag registry

    A shallow embedding of [tests/pymods/yaml_tools/register_tag.py]:
    - [Normalizer]: [re_word], [normalize_attr];
    - [DynRecord]: [BaseDictWrapper] and its [get], [__getitem__],
      [__setitem__], together with Python's attribute lookup on it;
    - [Registry]: the decorators [yaml_map], [yaml_seq], [yaml_scalar] and
      [yaml_not_available_tag] over PyYAML's constructor table.

    Python text is modelled as [str], a list of characters. *)

From Stdlib Require Import String Ascii List NArith ZArith Arith Lia Bool.
From Equations Require Import Equations.
Import ListNotations.
Open Scope string_scope.
Open Scope list_scope.

Definition str := list ascii.

Definition lit (s : string) : str := list_ascii_of_string s.
Coercion lit : string >-> str.

Definition str_eqb (a b : str) : bool :=
  if list_eq_dec ascii_dec a b then true else false.

(** ** Attribute normaliser *)

Module Normalizer.

(** The character class [[a-zA-Z0-9_]] of [re_word]. *)
Definition is_word (c : ascii) : bool :=
  let n := N_of_ascii c in
  ((97 <=? n) && (n <=? 122) || (65 <=? n) && (n <=? 90) ||
   (48 <=? n) && (n <=? 57) || (n =? 95))%N.

(** Greedy repetition of the class at the head of the text: the characters
    consumed by [[a-zA-Z0-9_]*], and what is left after them. *)
Fixpoint word_prefix (s : str) : str :=
  match s with
  | [] => []
  | c :: s' => if is_word c then c :: word_prefix s' else []
  end.

Fixpoint word_rest (s : str) : str :=
  match s with
  | [] => []
  | c :: s' => if is_word c then word_rest s' else s
  end.

Lemma word_rest_length (s : str) : length (word_rest s) <= length s.
Proof.
  induction s as [|c s IH]; simpl; [lia|].
  destruct (is_word c); simpl; lia.
Qed.

(** [re_word.findall(string)]: scan from the left; where [[a-zA-Z0-9_]+]
    matches, the match is greedy, it is reported and the scan resumes after
    it; where it does not match the scan moves one character on. *)
Equations? findall (s : str) : list str by wf (length s) lt :=
  findall [] := [];
  findall (c :: s') :=
    if is_word c
    then (c :: word_prefix s') :: findall (word_rest s')
    else findall s'.
Proof.
  all: simpl; pose proof (word_rest_length s'); lia.
Qed.

(** A non-empty text of letters, digits and underscores: what a match of
    [re_word] is. *)
Definition word_text (r : str) : Prop := r <> [] /\ forallb is_word r = true.

(** ['_'.join(parts)] *)
Fixpoint join (sep : str) (parts : list str) : str :=
  match parts with
  | [] => []
  | [p] => p
  | p :: ps => p ++ sep ++ join sep ps
  end.

Definition normalize_attr (string : str) : str :=
  join "_" (findall string).

(** The normaliser as the specification words it: the maximal runs of
    letters, digits and underscores, in the order in which they occur,
    joined by an underscore.  A run is a non-empty stretch of the label made
    of such characters only; it is maximal when the characters next to it on
    either side, if any, are not of that kind. *)
Definition word_at (s : str) (j : nat) : bool :=
  match nth_error s j with
  | Some c => is_word c
  | None => false
  end.

Definition substring (i n : nat) (s : str) : str := firstn n (skipn i s).

Definition is_run (s : str) (i n : nat) : bool :=
  (0 <? n)%nat && forallb (word_at s) (seq i n).

Definition is_maximal (s : str) (i n : nat) : bool :=
  negb ((0 <? i)%nat && word_at s (i - 1)) && negb (word_at s (i + n)).

Definition runs_at (s : str) (i : nat) : list str :=
  flat_map
    (fun n => if is_run s i n && is_maximal s i n then [substring i n s] else [])
    (seq 1 (length s - i)).

Definition maximal_runs (s : str) : list str :=
  flat_map (runs_at s) (seq 0 (length s)).

Definition spec_normalize (label : str) : str :=
  join "_" (maximal_runs label).

End Normalizer.

(** ** Values, exceptions and dictionaries *)

(** Exceptions raised by the modelled code.  [UserError cls args] is an
    instance of an exception class defined outside this module, built from
    the class name and the constructor arguments. *)
Inductive exn : Type :=
| KeyError (key : str)
| AttributeError (name : str)
| ConstructorError
| UserError (cls : str) (args : list str).

(** Modelled from the spec: the exception class [NotAvailableTagError] that
    the module imports from [.errors], a file that is not among the sources.
    It is raised with the tag and the reason and carries both. *)
Definition NotAvailableTagError (tag reason : str) : exn :=
  UserError "NotAvailableTagError" [tag; reason].

Inductive result (A : Type) : Type :=
| Ok (a : A)
| Raise (e : exn).
Arguments Ok {A} a.
Arguments Raise {A} e.

Definition bind {A B : Type} (m : result A) (k : A -> result B) : result B :=
  match m with
  | Ok a => k a
  | Raise e => Raise e
  end.

Notation "x <- m ;; k" := (bind m (fun x => k))
  (at level 61, m at next level, right associativity).

(** A Python [dict] with text keys, in insertion order. *)
Section Dict.
Context {V : Type}.

(** [d[k]], as [Some v], or [None] when [k not in d] *)
Fixpoint dict_get (d : list (str * V)) (k : str) : option V :=
  match d with
  | [] => None
  | (k', v) :: d' => if str_eqb k' k then Some v else dict_get d' k
  end.

(** [k in d] *)
Definition dict_mem (d : list (str * V)) (k : str) : bool :=
  match dict_get d k with Some _ => true | None => false end.

(** [d[k] = v]: an existing key keeps its place, a new key goes last *)
Fixpoint dict_set (d : list (str * V)) (k : str) (v : V) : list (str * V) :=
  match d with
  | [] => [(k, v)]
  | (k', v') :: d' =>
      if str_eqb k' k then (k', v) :: d' else (k', v') :: dict_set d' k v
  end.

Definition dict_keys (d : list (str * V)) : list str := map fst d.

(** The number of entries stored under [k]. *)
Definition count_key (d : list (str * V)) (k : str) : nat :=
  length (filter (fun kv => str_eqb (fst kv) k) d).

(** What every Python dict satisfies: no key occurs twice. *)
Fixpoint dict_wf (d : list (str * V)) : bool :=
  match d with
  | [] => true
  | (k, _) :: d' => negb (dict_mem d' k) && dict_wf d'
  end.
End Dict.

(** ** The dictionary wrapper *)

Module DynRecord.
Import Normalizer.

(** Python values.  [VDict d] is an object whose type is exactly [dict];
    [VRec fields] is a [BaseDictWrapper] whose [__dict__] is [fields];
    [VOpaque name] stands for any other object (a class, a bound method). *)
#[warnings="-register-all"]
Inductive value : Type :=
| VNone
| VBool (b : bool)
| VInt (z : Z)
| VStr (s : str)
| VList (l : list value)
| VDict (d : list (str * value))
| VRec (fields : list (str * value))
| VOpaque (name : str).

Definition dict := list (str * value).

(** [type(v) is dict] *)
Definition is_dict (v : value) : bool :=
  match v with VDict _ => true | _ => false end.

(** [BaseDictWrapper.__setitem__], as a function from the [__dict__] before
    the call to the [__dict__] after it.  [BaseDictWrapper(val)] runs
    [__init__], whose loop [for attr in d: self[attr] = d[attr]] starts
    from an empty [__dict__] and calls [__setitem__] again. *)
Fixpoint setitem (self : dict) (key : str) (val : value) {struct val} : dict :=
  let val :=
    match val with
    | VDict d =>
        VRec (fold_left (fun new kv => setitem new (fst kv) (snd kv)) d [])
    | _ => val
    end in
  dict_set self (normalize_attr key) val.

(** [BaseDictWrapper.__init__]: the [__dict__] of [BaseDictWrapper(d)]. *)
Definition BaseDictWrapper (d : dict) : dict :=
  fold_left (fun self kv => setitem self (fst kv) (snd kv)) d [].

(** The conversion [get] and [__getitem__] end with,
    [if type(elem) is dict: return BaseDictWrapper(elem) else: return elem],
    which is also the one [__setitem__] starts with. *)
Definition wrap (elem : value) : value :=
  match elem with
  | VDict d => VRec (BaseDictWrapper d)
  | _ => elem
  end.

(** [BaseDictWrapper.get]: the returned value and the [__dict__] after the
    call. *)
Definition get (self : dict) (key : str) (default : value) : value * dict :=
  let nkey := normalize_attr key in
  let elem :=
    match dict_get self nkey with
    | Some elem => elem
    | None => default
    end in
  (wrap elem, self).

(** [BaseDictWrapper.__getitem__] *)
Definition getitem (self : dict) (key : str) : result value * dict :=
  let nkey := normalize_attr key in
  match dict_get self nkey with
  | None => (Raise (KeyError key), self)
  | Some elem => (Ok (wrap elem), self)
  end.

(** Attribute access [obj.name] on a [BaseDictWrapper], which defines neither
    [__getattr__] nor [__getattribute__]: Python's default lookup.  The data
    descriptors of the type come first ([__class__] from [object],
    [__dict__] and [__weakref__] from the class itself), then the instance
    [__dict__], then whatever else the class and its bases define. *)
Section AttributeLookup.
(** The other attributes found on the class and its bases: the methods,
    [_is_dict_like], what [object] provides. *)
Variable class_attr : str -> option value.

Definition data_descriptor (self : dict) (name : str) : option value :=
  if str_eqb name "__class__" then Some (VOpaque "BaseDictWrapper")
  else if str_eqb name "__dict__" then Some (VDict self)
  else if str_eqb name "__weakref__" then Some VNone
  else None.

Definition getattr (self : dict) (name : str) : result value :=
  match data_descriptor self name with
  | Some v => Ok v
  | None =>
      match dict_get self name with
      | Some v => Ok v
      | None =>
          match class_attr name with
          | Some v => Ok v
          | None => Raise (AttributeError name)
          end
      end
  end.

(** Attribute assignment [obj.name = v]: no [__setattr__] is defined and
    [__class__], [__dict__], [__weakref__] apart the value goes into the
    instance [__dict__] as it is. *)
Definition setattr (self : dict) (name : str) (v : value) : dict :=
  dict_set self name v.
End AttributeLookup.

(** No raw mapping can be reached from [v] through the fields of wrappers. *)
Fixpoint no_raw (v : value) : bool :=
  match v with
  | VDict _ => false
  | VRec fields => forallb (fun kv => no_raw (snd kv)) fields
  | _ => true
  end.

(** The wrappers that occur in [v] already, below raw mappings, hold no raw
    mapping. *)
Fixpoint wrappers_clean (v : value) : bool :=
  match v with
  | VDict d => forallb (fun kv => wrappers_clean (snd kv)) d
  | VRec fields => forallb (fun kv => no_raw (snd kv)) fields
  | _ => true
  end.

(** [BaseDictWrapper.__iter__] and [keys]: the keys of [__dict__], in its
    order. *)
Definition iter_keys (self : dict) : list str := dict_keys self.

(** [BaseDictWrapper.__repr__].  [format_value val] is the text that
    ['{}'.format(val)] gives; [class_name] is [self.__class__.__name__];
    [r[:-2]] drops the last two characters, or all of them when there are
    fewer. *)
Section Repr.
Variable format_value : value -> str.

Definition repr (class_name : str) (self : dict) : str :=
  let r :=
    fold_left
      (fun r kv => r ++ (fst kv ++ lit "=" ++ format_value (snd kv) ++ lit ", "))
      self (class_name ++ lit "(") in
  firstn (length r - 2) r ++ lit ")".
End Repr.

(** [AutoMap.from_map(cls, d)] for a dict [d]: [new] is the [__dict__] of the
    instance [cls()] has made, the result the [__dict__] of what is
    returned. *)
Definition AutoMap_from_map (new : dict) (d : dict) : dict :=
  fold_left (fun new kv => setitem new (fst kv) (snd kv)) d new.

(** [AutoMap.to_map]: the [__dict__] itself. *)
Definition AutoMap_to_map (self : dict) : dict := self.

(** A [__dict__] as [__setitem__] leaves it: every key is its own normal
    form, no key occurs twice and no value is a raw mapping. *)
Definition keys_normalized (d : dict) : bool :=
  forallb (fun kv => str_eqb (normalize_attr (fst kv)) (fst kv)) d.

Definition no_raw_values (d : dict) : bool :=
  forallb (fun kv => negb (is_dict (snd kv))) d.

Definition store_ok (d : dict) : bool :=
  dict_wf d && keys_normalized d && no_raw_values d.

(** No key of [d] has the normal form [nkey]. *)
Definition no_key_for (nkey : str) (d : dict) : bool :=
  forallb (fun kv => negb (str_eqb (normalize_attr (fst kv)) nkey)) d.

End DynRecord.

(** ** The tag registry *)

Module Registry.
Import DynRecord.

(** The nodes the YAML parser hands to a constructor. *)
#[warnings="-register-all"]
Inductive node : Type :=
| ScalarNode (tag : str) (text : str)
| SequenceNode (tag : str) (items : list node)
| MappingNode (tag : str) (pairs : list (node * node)).

Definition node_tag (n : node) : str :=
  match n with
  | ScalarNode tag _ => tag
  | SequenceNode tag _ => tag
  | MappingNode tag _ => tag
  end.

(** The loader methods a constructor calls.  They belong to PyYAML;
    [construct_mapping] and [construct_sequence] build the children through
    the loader itself. *)
Record loader : Type := {
  construct_mapping : node -> result dict;
  construct_sequence : node -> result (list value);
  construct_scalar : node -> result str
}.

(** The dumper methods a representer calls, PyYAML's as well. *)
Record dumper : Type := {
  represent_mapping : str -> value -> result node;
  represent_sequence : str -> value -> result node;
  represent_scalar : str -> value -> result node
}.

(** What looking a method up on a class gives: nothing, a classmethod (bound
    to the class, so [ismethod] holds), or a plain function that expects
    [self] first (for which [ismethod] does not hold). *)
Inductive method : Type :=
| NoAttr
| ClassMethod (f : value -> result value)
| PlainMethod (f : value -> value -> result value).

(** A class handed to the decorators.  [cls_id] is the identity of the class
    object, [cls_attr] gives its text-valued class attributes, [cls_new] is
    [Cls()]. *)
Record pyclass : Type := {
  cls_id : nat;
  cls_name : str;
  cls_attr : str -> option str;
  cls_new : result value;
  from_map : method;
  to_map : option (value -> result value);
  from_seq : method;
  to_seq : option (value -> result value);
  from_scalar : method;
  to_scalar : option (value -> result value)
}.

(** [obj.name(arg)] for a method found on the class of [obj] *)
Definition call_on_instance (m : method) (name : str) (self arg : value)
  : result value :=
  match m with
  | NoAttr => Raise (AttributeError name)
  | ClassMethod f => f arg
  | PlainMethod f => f self arg
  end.

(** [obj.name()] for an encoder found on the class of [obj] *)
Definition call_encoder (m : option (value -> result value)) (name : str)
  (self : value) : result value :=
  match m with
  | None => Raise (AttributeError name)
  | Some f => f self
  end.

(** [s.lstrip('_')] *)
Fixpoint lstrip_underscore (s : str) : str :=
  match s with
  | c :: s' => if Ascii.eqb c "_" then lstrip_underscore s' else s
  | [] => []
  end.

Definition yaml_tag_mangle (Cls : pyclass) : str :=
  lit "_" ++ lstrip_underscore (cls_name Cls) ++ lit "__yaml_tag".

(** ['!' + getattr(Cls, yaml_tag_mangle(Cls), Cls.__name__)] *)
Definition class_tag (Cls : pyclass) : str :=
  lit "!" ++ match cls_attr Cls (yaml_tag_mangle Cls) with
         | Some t => t
         | None => cls_name Cls
         end.

Definition constructor := loader -> node -> result value.
Definition representer := dumper -> value -> result node.

(** The two tables the decorators write to: the constructors of [Loader],
    by tag, and the representers of the dumper, by class. *)
Record registry : Type := {
  yaml_constructors : list (str * constructor);
  yaml_representers : list (nat * representer)
}.

(** PyYAML's [add_constructor]: [yaml_constructors[tag] = constructor]. *)
Definition add_constructor (tag : str) (c : constructor) (reg : registry)
  : registry :=
  {| yaml_constructors := dict_set (yaml_constructors reg) tag c;
     yaml_representers := yaml_representers reg |}.

Fixpoint repr_set (t : list (nat * representer)) (k : nat) (r : representer)
  : list (nat * representer) :=
  match t with
  | [] => [(k, r)]
  | (k', r') :: t' =>
      if Nat.eqb k' k then (k', r) :: t' else (k', r') :: repr_set t' k r
  end.

(** PyYAML's [add_representer]: [yaml_representers[Cls] = representer]. *)
Definition add_representer (Cls : pyclass) (r : representer) (reg : registry)
  : registry :=
  {| yaml_constructors := yaml_constructors reg;
     yaml_representers := repr_set (yaml_representers reg) (cls_id Cls) r |}.

(** The closures of [yaml_map].  Evaluating [Cls.from_map] fails when the
    class has no such attribute; [ismethod] holds of it exactly when it is a
    classmethod, which is then called on the class; otherwise the method is
    looked up again on [Cls()]. *)
Definition map_constructor (Cls : pyclass) : constructor :=
  fun loader node =>
    map <- construct_mapping loader node ;;
    match from_map Cls with
    | NoAttr => Raise (AttributeError "from_map")
    | ClassMethod f => f (VDict map)
    | PlainMethod _ =>
        self <- cls_new Cls ;;
        call_on_instance (from_map Cls) "from_map" self (VDict map)
    end.

Definition map_representer (Cls : pyclass) : representer :=
  fun dumper data =>
    m <- call_encoder (to_map Cls) "to_map" data ;;
    represent_mapping dumper (class_tag Cls) m.

Definition yaml_map (Cls : pyclass) (reg : registry) : registry :=
  add_representer Cls (map_representer Cls)
    (add_constructor (class_tag Cls) (map_constructor Cls) reg).

(** The closures of [yaml_seq]. *)
Definition seq_constructor (Cls : pyclass) : constructor :=
  fun loader node =>
    seq <- construct_sequence loader node ;;
    match from_seq Cls with
    | NoAttr => Raise (AttributeError "from_seq")
    | ClassMethod f => f (VList seq)
    | PlainMethod _ =>
        self <- cls_new Cls ;;
        call_on_instance (from_seq Cls) "from_seq" self (VList seq)
    end.

Definition seq_representer (Cls : pyclass) : representer :=
  fun dumper data =>
    s <- call_encoder (to_seq Cls) "to_seq" data ;;
    represent_sequence dumper (class_tag Cls) s.

Definition yaml_seq (Cls : pyclass) (reg : registry) : registry :=
  add_representer Cls (seq_representer Cls)
    (add_constructor (class_tag Cls) (seq_constructor Cls) reg).

(** The closures of [yaml_scalar].  The [else] branch calls [from_seq]. *)
Definition scalar_constructor (Cls : pyclass) : constructor :=
  fun loader node =>
    scalar <- construct_scalar loader node ;;
    match from_scalar Cls with
    | NoAttr => Raise (AttributeError "from_scalar")
    | ClassMethod f => f (VStr scalar)
    | PlainMethod _ =>
        self <- cls_new Cls ;;
        call_on_instance (from_seq Cls) "from_seq" self (VStr scalar)
    end.

Definition scalar_representer (Cls : pyclass) : representer :=
  fun dumper data =>
    s <- call_encoder (to_scalar Cls) "to_scalar" data ;;
    represent_scalar dumper (class_tag Cls) s.

Definition yaml_scalar (Cls : pyclass) (reg : registry) : registry :=
  add_representer Cls (scalar_representer Cls)
    (add_constructor (class_tag Cls) (scalar_constructor Cls) reg).

(** [yaml_not_available_tag] *)
Definition not_available_constructor (tag reason : str) : constructor :=
  fun loader node => Raise (NotAvailableTagError tag reason).

Definition yaml_not_available_tag (tag reason : str) (reg : registry)
  : registry :=
  add_constructor (lit "!" ++ tag) (not_available_constructor tag reason) reg.

(** Decoding a tagged node: PyYAML's [construct_object] takes the
    constructor registered under the node's tag and calls it with the loader
    and the node; with none registered it gives up. *)
Definition construct_object (reg : registry) (ld : loader) (n : node)
  : result value :=
  match dict_get (yaml_constructors reg) (node_tag n) with
  | Some c => c ld n
  | None => Raise ConstructorError
  end.

(** PyYAML's own [construct_scalar]: the text of a scalar node. *)
Definition pyyaml_construct_scalar (n : node) : result str :=
  match n with
  | ScalarNode _ text => Ok text
  | _ => Raise ConstructorError
  end.

(** The three kinds of node, and the decorator and constructor of each. *)
Inductive kind : Type := Map | Sequence | Scalar.

Definition yaml_register (k : kind) : pyclass -> registry -> registry :=
  match k with
  | Map => yaml_map
  | Sequence => yaml_seq
  | Scalar => yaml_scalar
  end.

Definition constructor_of (k : kind) : pyclass -> constructor :=
  match k with
  | Map => map_constructor
  | Sequence => seq_constructor
  | Scalar => scalar_constructor
  end.

Definition empty_registry : registry :=
  {| yaml_constructors := []; yaml_representers := [] |}.

(** A loader for nodes whose children are scalars, to run constructors on
    examples: a child is built as its text. *)
Definition scalar_text (n : node) : result str := pyyaml_construct_scalar n.

Fixpoint scalar_items (items : list node) : result (list value) :=
  match items with
  | [] => Ok []
  | n :: rest =>
      t <- scalar_text n ;;
      l <- scalar_items rest ;;
      Ok (VStr t :: l)
  end.

Fixpoint scalar_pairs (pairs : list (node * node)) : result dict :=
  match pairs with
  | [] => Ok []
  | (k, v) :: rest =>
      kt <- scalar_text k ;;
      vt <- scalar_text v ;;
      d <- scalar_pairs rest ;;
      Ok (dict_set d kt (VStr vt))
  end.

Definition scalar_loader : loader :=
  {| construct_mapping := fun n =>
       match n with
       | MappingNode _ pairs => scalar_pairs pairs
       | _ => Raise ConstructorError
       end;
     construct_sequence := fun n =>
       match n with
       | SequenceNode _ items => scalar_items items
       | _ => Raise ConstructorError
       end;
     construct_scalar := pyyaml_construct_scalar |}.

(** Example classes.  [plain_scalar_class] follows the docstring of
    [yaml_scalar]: [from_scalar] is a normal method, [Cls()] is valid, and
    there is no [from_seq].  [class_method_scalar_class] has [from_scalar]
    as a classmethod. *)
Definition plain_scalar_class : pyclass :=
  {| cls_id := 1; cls_name := "Celsius"; cls_attr := fun _ => None;
     cls_new := Ok (VRec []);
     from_map := NoAttr; to_map := None;
     from_seq := NoAttr; to_seq := None;
     from_scalar := PlainMethod (fun self text =>
                      Ok (VRec (setitem [] "degrees" text)));
     to_scalar := Some (fun self =>
                    match self with
                    | VRec fields => fst (getitem fields "degrees")
                    | _ => Raise (AttributeError "degrees")
                    end) |}.

Definition class_method_scalar_class : pyclass :=
  {| cls_id := 2; cls_name := "Kelvin"; cls_attr := fun _ => None;
     cls_new := Ok (VRec []);
     from_map := NoAttr; to_map := None;
     from_seq := NoAttr; to_seq := None;
     from_scalar := ClassMethod (fun text =>
                      Ok (VRec (setitem [] "degrees" text)));
     to_scalar := None |}.

(** Two classes named [A], each with a [from_map] of its own. *)
Definition map_class (id : nat) (made : value) : pyclass :=
  {| cls_id := id; cls_name := "A"; cls_attr := fun _ => None;
     cls_new := Ok (VRec []);
     from_map := ClassMethod (fun _ => Ok made); to_map := None;
     from_seq := NoAttr; to_seq := None;
     from_scalar := NoAttr; to_scalar := None |}.

(** The representer of each kind. *)
Definition representer_of (k : kind) : pyclass -> representer :=
  match k with
  | Map => map_representer
  | Sequence => seq_representer
  | Scalar => scalar_representer
  end.

Fixpoint repr_get (t : list (nat * representer)) (k : nat)
  : option representer :=
  match t with
  | [] => None
  | (k', r) :: t' => if Nat.eqb k' k then Some r else repr_get t' k
  end.

(** The representer that PyYAML's [represent_data] finds first for an
    instance of [Cls]: the entry of the table under the class itself. *)
Definition find_representer (reg : registry) (Cls : pyclass)
  : option representer :=
  repr_get (yaml_representers reg) (cls_id Cls).

(** A dumper for text scalars, to run representers on examples:
    PyYAML's [represent_scalar] puts the tag and the text in a scalar
    node. *)
Definition text_dumper : dumper :=
  {| represent_mapping := fun _ _ => Raise (UserError "RepresenterError" []);
     represent_sequence := fun _ _ => Raise (UserError "RepresenterError" []);
     represent_scalar := fun tag v =>
       match v with
       | VStr text => Ok (ScalarNode tag text)
       | _ => Raise (UserError "RepresenterError" [])
       end |}.

(** A scalar class with both directions: the instance keeps the text under
    [degrees]. *)
Definition round_trip_scalar_class : pyclass :=
  {| cls_id := 3; cls_name := "Kelvin"; cls_attr := fun _ => None;
     cls_new := Ok (VRec []);
     from_map := NoAttr; to_map := None;
     from_seq := NoAttr; to_seq := None;
     from_scalar := ClassMethod (fun text =>
                      Ok (VRec (setitem [] "degrees" text)));
     to_scalar := Some (fun self =>
                    match self with
                    | VRec fields => fst (getitem fields "degrees")
                    | _ => Raise (AttributeError "degrees")
                    end) |}.

(** A class with a name and a tag attribute chosen freely. *)
Definition named_class (name : str) (attr : str -> option str) : pyclass :=
  {| cls_id := 0; cls_name := name; cls_attr := attr;
     cls_new := Ok (VRec []);
     from_map := NoAttr; to_map := None;
     from_seq := NoAttr; to_seq := None;
     from_scalar := NoAttr; to_scalar := None |}.

End Registry.

(** * Properties *)

(** ** The normaliser *)

Section NormalizerFacts.
Import Normalizer.

Lemma word_split (s : str) : word_prefix s ++ word_rest s = s.
Proof.
  induction s as [|c s IH]; simpl; [reflexivity|].
  destruct (is_word c); simpl; [now rewrite IH | reflexivity].
Qed.

Lemma word_prefix_all (s : str) : forallb is_word (word_prefix s) = true.
Proof.
  induction s as [|c s IH]; simpl; [reflexivity|].
  destruct (is_word c) eqn:E; simpl; [now rewrite E | reflexivity].
Qed.

Lemma word_rest_head (s : str) :
  match word_rest s with [] => True | c :: _ => is_word c = false end.
Proof.
  induction s as [|c s IH]; simpl; [exact I|].
  destruct (is_word c) eqn:E; [exact IH | exact E].
Qed.

Lemma word_prefix_id (s : str) :
  forallb is_word s = true -> word_prefix s = s.
Proof.
  induction s as [|c s IH]; simpl; [reflexivity|].
  intros H. apply andb_prop in H as [Hc Hs]. rewrite Hc, (IH Hs). reflexivity.
Qed.

Lemma word_rest_nil (s : str) :
  forallb is_word s = true -> word_rest s = [].
Proof.
  induction s as [|c s IH]; simpl; [reflexivity|].
  intros H. apply andb_prop in H as [Hc Hs]. rewrite Hc. exact (IH Hs).
Qed.

(** The two defining equations of [findall], by the case of the head. *)
Lemma findall_word (c : ascii) (s : str) :
  is_word c = true ->
  findall (c :: s) = (c :: word_prefix s) :: findall (word_rest s).
Proof. intros H. simp findall. rewrite H. reflexivity. Qed.

Lemma findall_skip (c : ascii) (s : str) :
  is_word c = false -> findall (c :: s) = findall s.
Proof. intros H. simp findall. rewrite H. reflexivity. Qed.

(** Induction following the scan of [findall]. *)
Lemma findall_ind (P : str -> Prop) :
  P [] ->
  (forall c s, is_word c = false -> P s -> P (c :: s)) ->
  (forall c s, is_word c = true -> P (word_rest s) -> P (c :: s)) ->
  forall s, P s.
Proof.
  intros Hnil Hskip Hword s.
  remember (length s) as n eqn:Hn.
  revert s Hn. induction n as [n IH] using lt_wf_ind. intros s Hn.
  destruct s as [|c s]; [exact Hnil|].
  destruct (is_word c) eqn:E.
  - apply Hword; [exact E|].
    apply (IH (length (word_rest s))); [|reflexivity].
    pose proof (word_rest_length s). simpl in Hn. lia.
  - apply Hskip; [exact E|].
    apply (IH (length s)); [simpl in Hn; lia | reflexivity].
Qed.

(** *** [findall] yields the maximal runs *)

Lemma flat_map_none {A B : Type} (f : A -> list B) (l : list A) :
  (forall x, In x l -> f x = []) -> flat_map f l = [].
Proof.
  induction l as [|a l IH]; simpl; intros H; [reflexivity|].
  rewrite (H a (or_introl eq_refl)), IH; [reflexivity|].
  intros x Hx. apply H. right. exact Hx.
Qed.

Lemma flat_map_select {B : Type} (P : nat -> bool) (g : nat -> B)
  (a len n0 : nat) :
  a <= n0 < a + len ->
  (forall n, a <= n < a + len -> (P n = true <-> n = n0)) ->
  flat_map (fun n => if P n then [g n] else []) (seq a len) = [g n0].
Proof.
  intros Hn0 HP.
  replace len with ((n0 - a) + (1 + (a + len - n0 - 1))) by lia.
  rewrite seq_app, flat_map_app. simpl seq. simpl flat_map.
  replace (a + (n0 - a)) with n0 by lia.
  rewrite !flat_map_none.
  - destruct (P n0) eqn:E; [reflexivity|].
    assert (P n0 = true) by (apply HP; [lia | reflexivity]). congruence.
  - intros n Hn. apply in_seq in Hn.
    destruct (P n) eqn:E; [|reflexivity].
    apply HP in E; lia.
  - intros n Hn. apply in_seq in Hn.
    destruct (P n) eqn:E; [|reflexivity].
    apply HP in E; lia.
Qed.

Lemma word_at_app_r (p t : str) (j : nat) :
  word_at (p ++ t) (length p + j) = word_at t j.
Proof.
  unfold word_at. rewrite nth_error_app2 by lia.
  replace (length p + j - length p) with j by lia. reflexivity.
Qed.

Lemma word_at_prefix (t : str) (j : nat) :
  j < length (word_prefix t) -> word_at t j = true.
Proof.
  revert j. induction t as [|c t IH]; simpl; intros j Hj; [lia|].
  destruct (is_word c) eqn:E; simpl in Hj; [|lia].
  destruct j as [|j]; [exact E|].
  apply IH. lia.
Qed.

Lemma word_at_prefix_end (t : str) :
  word_at t (length (word_prefix t)) = false.
Proof.
  induction t as [|c t IH]; simpl; [reflexivity|].
  destruct (is_word c) eqn:E; simpl; [exact IH | exact E].
Qed.

Lemma word_prefix_length (t : str) : length (word_prefix t) <= length t.
Proof.
  rewrite <- (word_split t) at 2. rewrite length_app. lia.
Qed.

Lemma is_run_prefix (p t : str) (n : nat) :
  is_run (p ++ t) (length p) n = true <->
  0 < n <= length (word_prefix t).
Proof.
  unfold is_run. rewrite andb_true_iff, Nat.ltb_lt, forallb_forall. split.
  - intros [Hn H]. split; [exact Hn|].
    destruct (Nat.le_gt_cases n (length (word_prefix t))) as [Hle|Hgt];
      [exact Hle|].
    assert (Hin : In (length p + length (word_prefix t)) (seq (length p) n))
      by (apply in_seq; lia).
    apply H in Hin. rewrite word_at_app_r, word_at_prefix_end in Hin.
    discriminate.
  - intros [Hn Hle]. split; [exact Hn|].
    intros j Hj. apply in_seq in Hj.
    replace j with (length p + (j - length p)) by lia.
    rewrite word_at_app_r. apply word_at_prefix. lia.
Qed.

Lemma substring_prefix (p t : str) :
  substring (length p) (length (word_prefix t)) (p ++ t) = word_prefix t.
Proof.
  unfold substring. rewrite skipn_app, skipn_all, Nat.sub_diag. simpl.
  rewrite <- (word_split t) at 2.
  rewrite firstn_app, Nat.sub_diag, firstn_all. simpl.
  apply app_nil_r.
Qed.

Lemma runs_from (n : nat) :
  forall t p : str,
    length t = n ->
    length p = 0 \/ word_at (p ++ t) (length p - 1) = false \/
      word_at (p ++ t) (length p) = false ->
    flat_map (runs_at (p ++ t)) (seq (length p) (length t)) = findall t.
Proof.
  induction n as [n IH] using lt_wf_ind. intros t p Hn Hpre.
  destruct t as [|c t']; [reflexivity|].
  destruct (is_word c) eqn:E.
  - (* a run starts here *)
    rewrite (findall_word c t' E).
    set (t := c :: t') in *.
    assert (Hk : word_at (p ++ t) (length p) = true).
    { rewrite <- (Nat.add_0_r (length p)), word_at_app_r. exact E. }
    assert (Hpt : word_prefix t = c :: word_prefix t')
      by (unfold t; simpl; rewrite E; reflexivity).
    assert (Hrt : word_rest t = word_rest t')
      by (unfold t; simpl; rewrite E; reflexivity).
    rewrite <- Hpt, <- Hrt.
    pose proof (word_split t) as Hsplit.
    pose proof (word_prefix_length t) as Hlen.
    set (m := length (word_prefix t)) in *.
    assert (Hm : 0 < m) by (unfold m; rewrite Hpt; simpl; lia).
    assert (Hlt : length t = m + length (word_rest t)).
    { rewrite <- Hsplit at 1. rewrite length_app. reflexivity. }
    rewrite Hlt, seq_app, flat_map_app.
    replace m with (S (m - 1)) at 1 by lia. simpl seq. simpl flat_map.
    assert (Ha : runs_at (p ++ t) (length p) = [word_prefix t]).
    { unfold runs_at. rewrite <- (substring_prefix p t).
      apply (flat_map_select _ (fun n => substring (length p) n (p ++ t))).
      - rewrite length_app. fold m. lia.
      - intros k Hkr. rewrite length_app in Hkr.
        rewrite andb_true_iff, is_run_prefix. fold m.
        unfold is_maximal. rewrite andb_true_iff, !negb_true_iff.
        rewrite word_at_app_r. split.
        + intros [[_ Hle] [_ Hend]].
          destruct (Nat.eq_dec k m) as [|Hne]; [assumption|].
          rewrite word_at_prefix in Hend by (fold m; lia). discriminate.
        + intros ->. split; [lia|]. split.
          * destruct Hpre as [H0|[H1|H2]].
            -- rewrite H0. reflexivity.
            -- rewrite H1. apply andb_false_r.
            -- congruence.
          * apply word_at_prefix_end. }
    assert (Hb : flat_map (runs_at (p ++ t)) (seq (S (length p)) (m - 1)) = []).
    { apply flat_map_none. intros i Hi. apply in_seq in Hi.
      unfold runs_at. apply flat_map_none. intros k _.
      assert (Hmax : is_maximal (p ++ t) i k = false).
      { unfold is_maximal.
        replace (i - 1) with (length p + (i - 1 - length p)) by lia.
        rewrite word_at_app_r, word_at_prefix by (fold m; lia).
        replace (0 <? i)%nat with true by (symmetry; apply Nat.ltb_lt; lia).
        reflexivity. }
      rewrite Hmax, andb_false_r. reflexivity. }
    rewrite Ha, Hb. simpl. f_equal.
    assert (Hs : p ++ t = (p ++ word_prefix t) ++ word_rest t)
      by (rewrite <- app_assoc, Hsplit; reflexivity).
    assert (Hlp : length p + m = length (p ++ word_prefix t))
      by (rewrite length_app; reflexivity).
    assert (Hend : word_at ((p ++ word_prefix t) ++ word_rest t)
                     (length (p ++ word_prefix t)) = false).
    { rewrite <- Hs, <- Hlp, word_at_app_r. apply word_at_prefix_end. }
    rewrite Hs, Hlp.
    apply (IH (length (word_rest t))).
    + lia.
    + reflexivity.
    + right. right. exact Hend.
  - (* no run starts here *)
    rewrite (findall_skip c t' E).
    assert (Hk : word_at (p ++ c :: t') (length p) = false).
    { rewrite <- (Nat.add_0_r (length p)), word_at_app_r. exact E. }
    simpl length. simpl seq. simpl flat_map.
    assert (Ha : runs_at (p ++ c :: t') (length p) = []).
    { unfold runs_at. apply flat_map_none. intros k Hkr. apply in_seq in Hkr.
      assert (Hrun : is_run (p ++ c :: t') (length p) k = false).
      { unfold is_run. destruct k as [|k]; [lia|].
        simpl. rewrite Hk. reflexivity. }
      rewrite Hrun. reflexivity. }
    rewrite Ha. simpl.
    assert (Hs : p ++ c :: t' = (p ++ [c]) ++ t')
      by (rewrite <- app_assoc; reflexivity).
    assert (Hlp : S (length p) = length (p ++ [c]))
      by (rewrite length_app; simpl; lia).
    rewrite Hs, Hlp.
    apply (IH (length t')).
    + simpl in Hn. lia.
    + reflexivity.
    + right. left. rewrite <- Hs, <- Hlp.
      replace (S (length p) - 1) with (length p) by lia. exact Hk.
Qed.

Lemma findall_maximal_runs (s : str) : findall s = maximal_runs s.
Proof.
  unfold maximal_runs. symmetry.
  apply (runs_from (length s) s []); [reflexivity | left; reflexivity].
Qed.

(** *** What [findall] and [normalize_attr] return *)

Lemma findall_word_text (s : str) : Forall word_text (findall s).
Proof.
  induction s as [|c s E IH|c s E IH] using findall_ind.
  - simp findall. constructor.
  - rewrite (findall_skip c s E). exact IH.
  - rewrite (findall_word c s E). constructor; [|exact IH].
    split; [discriminate|]. simpl. rewrite E. apply word_prefix_all.
Qed.

Lemma findall_of_word_text (s : str) : word_text s -> findall s = [s].
Proof.
  intros [Hne Hall]. destruct s as [|c s]; [congruence|].
  simpl in Hall. apply andb_prop in Hall as [Hc Hs].
  rewrite (findall_word c s Hc), (word_prefix_id s Hs), (word_rest_nil s Hs).
  simp findall. reflexivity.
Qed.

Lemma findall_no_word (s : str) :
  forallb (fun c => negb (is_word c)) s = true -> findall s = [].
Proof.
  induction s as [|c s IH]; simpl; intros H; [simp findall; reflexivity|].
  apply andb_prop in H as [Hc Hs]. apply negb_true_iff in Hc.
  rewrite (findall_skip c s Hc). exact (IH Hs).
Qed.

Lemma join_cons (sep p : str) (ps : list str) :
  ps <> [] -> join sep (p :: ps) = p ++ sep ++ join sep ps.
Proof. destruct ps; [congruence | reflexivity]. Qed.

Lemma join_word_text (parts : list str) :
  Forall word_text parts -> parts <> [] -> word_text (join "_" parts).
Proof.
  induction 1 as [|p ps [Hne Hall] Hps IH]; intros Hparts; [congruence|].
  destruct ps as [|q ps]; [split; assumption|].
  rewrite join_cons by discriminate.
  destruct IH as [_ IHall]; [discriminate|].
  split.
  - destruct p; [congruence | discriminate].
  - rewrite !forallb_app, Hall, IHall. reflexivity.
Qed.

Lemma normalize_attr_fixed (s : str) :
  forallb is_word s = true -> normalize_attr s = s.
Proof.
  intros Hall. unfold normalize_attr. destruct s as [|c s].
  - simp findall. reflexivity.
  - rewrite findall_of_word_text; [reflexivity|].
    split; [discriminate | exact Hall].
Qed.

Lemma normalize_attr_all_word (s : str) :
  forallb is_word (normalize_attr s) = true.
Proof.
  unfold normalize_attr. pose proof (findall_word_text s) as H.
  destruct (findall s) as [|p ps] eqn:E; [reflexivity|].
  apply join_word_text; [exact H | discriminate].
Qed.

(** C4: [normalize_attr] returns the maximal runs of letters, digits and
    underscores of the label, in order, joined by one underscore, all other
    characters being dropped; so "attr w/ spaces" and "attr-w-spaces" both
    become "attr_w_spaces". *)
Theorem normalize_attr_joins_maximal_runs :
  (forall label : str, normalize_attr label = spec_normalize label) /\
  maximal_runs "attr w/ spaces" = ["attr" : str; "w" : str; "spaces" : str] /\
  normalize_attr "attr w/ spaces" = "attr_w_spaces" /\
  normalize_attr "attr-w-spaces" = "attr_w_spaces".
Proof.
  split; [|repeat split; vm_compute; reflexivity].
  intros label. unfold normalize_attr, spec_normalize.
  rewrite findall_maximal_runs. reflexivity.
Qed.

(** C8: normalising twice is normalising once. *)
Theorem normalize_attr_idempotent (s : str) :
  normalize_attr (normalize_attr s) = normalize_attr s.
Proof. apply normalize_attr_fixed, normalize_attr_all_word. Qed.

Lemma normalize_attr_no_word (label : str) :
  forallb (fun c => negb (is_word c)) label = true -> normalize_attr label = [].
Proof.
  intros H. unfold normalize_attr. rewrite (findall_no_word label H).
  reflexivity.
Qed.

End NormalizerFacts.

(** ** Text equality and dictionaries *)

Lemma str_eqb_eq (a b : str) : str_eqb a b = true <-> a = b.
Proof.
  unfold str_eqb. destruct (list_eq_dec ascii_dec a b); split; congruence.
Qed.

Lemma str_eqb_refl (a : str) : str_eqb a a = true.
Proof. apply str_eqb_eq. reflexivity. Qed.

Lemma str_eqb_neq (a b : str) : str_eqb a b = false <-> a <> b.
Proof.
  unfold str_eqb. destruct (list_eq_dec ascii_dec a b); split; congruence.
Qed.

Section DictFacts.
Context {V : Type}.
Implicit Types (d : list (str * V)) (k : str) (v : V).

Lemma dict_get_set_same d k v : dict_get (dict_set d k v) k = Some v.
Proof.
  induction d as [|[k' v'] d IH]; simpl.
  - rewrite str_eqb_refl. reflexivity.
  - destruct (str_eqb k' k) eqn:E; simpl; rewrite E; [reflexivity | exact IH].
Qed.

Lemma dict_get_set_other d k k' v :
  k' <> k -> dict_get (dict_set d k v) k' = dict_get d k'.
Proof.
  intros Hne. induction d as [|[k0 v0] d IH]; simpl.
  - destruct (str_eqb k k') eqn:E; [|reflexivity].
    apply str_eqb_eq in E. congruence.
  - destruct (str_eqb k0 k) eqn:E; simpl.
    + destruct (str_eqb k0 k') eqn:E'; [|reflexivity].
      apply str_eqb_eq in E, E'. congruence.
    + rewrite IH. reflexivity.
Qed.

Lemma dict_mem_set d k k' v :
  dict_mem (dict_set d k v) k' = str_eqb k k' || dict_mem d k'.
Proof.
  unfold dict_mem. destruct (str_eqb k k') eqn:E.
  - apply str_eqb_eq in E. subst k'. rewrite dict_get_set_same. reflexivity.
  - apply str_eqb_neq in E. rewrite dict_get_set_other by congruence.
    reflexivity.
Qed.

Lemma count_key_absent d k : dict_mem d k = false -> count_key d k = 0.
Proof.
  unfold dict_mem, count_key. induction d as [|[k' v'] d IH]; simpl;
    [reflexivity|].
  destruct (str_eqb k' k); [discriminate | exact IH].
Qed.

Lemma dict_wf_set d k v : dict_wf d = true -> dict_wf (dict_set d k v) = true.
Proof.
  induction d as [|[k' v'] d IH]; simpl; [reflexivity|].
  intros H. apply andb_prop in H as [Hk' Hd].
  destruct (str_eqb k' k) eqn:E; simpl.
  - rewrite Hk', Hd. reflexivity.
  - rewrite dict_mem_set, (IH Hd), andb_true_r.
    apply negb_true_iff in Hk'. rewrite Hk', orb_false_r.
    apply negb_true_iff, str_eqb_neq. apply str_eqb_neq in E. congruence.
Qed.

Lemma count_key_set_same d k v :
  dict_wf d = true -> count_key (dict_set d k v) k = 1.
Proof.
  induction d as [|[k' v'] d IH]; simpl.
  - intros _. unfold count_key. simpl. rewrite str_eqb_refl. reflexivity.
  - intros H. apply andb_prop in H as [Hk' Hd]. apply negb_true_iff in Hk'.
    destruct (str_eqb k' k) eqn:E.
    + unfold count_key. simpl. rewrite E. simpl. f_equal.
      apply str_eqb_eq in E. subst k'. apply (count_key_absent d k Hk').
    + unfold count_key. simpl. rewrite E. apply (IH Hd).
Qed.

End DictFacts.

(** ** The dictionary wrapper *)

Section RecordFacts.
Import Normalizer DynRecord.

(** Induction on values that reaches the values inside lists, raw mappings
    and wrappers. *)
Lemma value_nested_ind (P : value -> Prop) :
  P VNone ->
  (forall b, P (VBool b)) ->
  (forall z, P (VInt z)) ->
  (forall s, P (VStr s)) ->
  (forall l, Forall P l -> P (VList l)) ->
  (forall d, Forall (fun kv => P (snd kv)) d -> P (VDict d)) ->
  (forall fields, Forall (fun kv => P (snd kv)) fields -> P (VRec fields)) ->
  (forall name, P (VOpaque name)) ->
  forall v, P v.
Proof.
  intros HNone HBool HInt HStr HList HDict HRec HOpaque.
  fix self 1. intros [| b | z | s | l | d | fields | name].
  - exact HNone.
  - apply HBool.
  - apply HInt.
  - apply HStr.
  - apply HList. induction l as [|x l IH]; constructor; [apply self | exact IH].
  - apply HDict.
    induction d as [|[k x] d IH]; constructor; [apply self | exact IH].
  - apply HRec.
    induction fields as [|[k x] d IH]; constructor; [apply self | exact IH].
  - apply HOpaque.
Qed.

Lemma setitem_eq (self : dict) (key : str) (val : value) :
  setitem self key val = dict_set self (normalize_attr key) (wrap val).
Proof. destruct val; reflexivity. Qed.

Lemma BaseDictWrapper_eq (d : dict) :
  BaseDictWrapper d =
  fold_left
    (fun self kv => dict_set self (normalize_attr (fst kv)) (wrap (snd kv)))
    d [].
Proof.
  unfold BaseDictWrapper. generalize (@nil (str * value)).
  induction d as [|kv d IH]; intros acc; simpl; [reflexivity|].
  rewrite setitem_eq. apply IH.
Qed.

Lemma wrap_not_dict (v : value) : is_dict v = false -> wrap v = v.
Proof. destruct v; simpl; congruence. Qed.

Lemma wrap_is_not_dict (v : value) : is_dict (wrap v) = false.
Proof. destruct v; reflexivity. Qed.

Lemma wrap_idempotent (v : value) : wrap (wrap v) = wrap v.
Proof. apply wrap_not_dict, wrap_is_not_dict. Qed.

Lemma setitem_wf (self : dict) (key : str) (val : value) :
  dict_wf self = true -> dict_wf (setitem self key val) = true.
Proof. rewrite setitem_eq. apply dict_wf_set. Qed.

Lemma BaseDictWrapper_wf (d : dict) : dict_wf (BaseDictWrapper d) = true.
Proof.
  unfold BaseDictWrapper.
  assert (H : dict_wf (@nil (str * value)) = true) by reflexivity.
  revert H. generalize (@nil (str * value)).
  induction d as [|kv d IH]; intros acc Hacc; simpl; [exact Hacc|].
  apply IH, setitem_wf, Hacc.
Qed.

Lemma forallb_dict_set (P : value -> bool) (d : dict) (k : str) (v : value) :
  forallb (fun kv => P (snd kv)) d = true -> P v = true ->
  forallb (fun kv => P (snd kv)) (dict_set d k v) = true.
Proof.
  intros Hd Hv. induction d as [|[k' v'] d IH]; simpl in *.
  - rewrite Hv. reflexivity.
  - apply andb_prop in Hd as [Hv' Hd].
    destruct (str_eqb k' k); simpl.
    + rewrite Hv, Hd. reflexivity.
    + rewrite Hv', (IH Hd). reflexivity.
Qed.

Lemma wrap_no_raw (v : value) :
  wrappers_clean v = true -> no_raw (wrap v) = true.
Proof.
  induction v as [| b | z | s | l IH | d IH | fields IH | name]
    using value_nested_ind; simpl; try reflexivity.
  - (* a raw mapping: every entry goes through [__setitem__] *)
    intros Hclean. rewrite BaseDictWrapper_eq.
    assert (Hacc : forallb (fun kv : str * value => no_raw (snd kv)) [] = true)
      by reflexivity.
    revert Hacc. generalize (@nil (str * value)).
    induction d as [|[k x] d IHd]; intros acc Hacc; simpl; [exact Hacc|].
    simpl in Hclean. apply andb_prop in Hclean as [Hx Hd].
    inversion IH as [|? ? IHx IHrest]; subst.
    apply IHd; [exact IHrest | exact Hd |].
    apply forallb_dict_set; [exact Hacc | exact (IHx Hx)].
  - (* a wrapper stays as it is *)
    intros Hclean. exact Hclean.
Qed.

Lemma get_after_setitem (self : dict) (key key' : str) (val default : value) :
  normalize_attr key' = normalize_attr key ->
  get (setitem self key val) key' default =
  (wrap val, setitem self key val).
Proof.
  intros Hk. unfold get. rewrite Hk, setitem_eq, dict_get_set_same.
  rewrite wrap_idempotent. reflexivity.
Qed.

Lemma getitem_after_setitem (self : dict) (key key' : str) (val : value) :
  normalize_attr key' = normalize_attr key ->
  getitem (setitem self key val) key' =
  (Ok (wrap val), setitem self key val).
Proof.
  intros Hk. unfold getitem. rewrite Hk, setitem_eq, dict_get_set_same.
  rewrite wrap_idempotent. reflexivity.
Qed.

(** *** Colliding keys *)

(** C1, as amended: when [k1] and [k2] normalise to the same text, after
    [self[k1] = v1; self[k2] = v2] the [__dict__] has exactly one entry under
    that text, and it holds the later value: [v2] itself unless [v2] is a raw
    mapping, in which case it holds the wrapper built from [v2].  Both
    assignments are total, nothing is raised.  With "attr .w. --spaces" set to
    1 and then "attr w/ spaces" set to 2, [get("attr w/ spaces")] is 2. *)
Theorem setitem_collision_later_wins
  (self : dict) (k1 k2 : str) (v1 v2 : value)
  (Hwf : dict_wf self = true)
  (Hk : normalize_attr k1 = normalize_attr k2) :
  let r := setitem (setitem self k1 v1) k2 v2 in
  count_key r (normalize_attr k2) = 1 /\
  dict_get r (normalize_attr k2) = Some (wrap v2) /\
  (is_dict v2 = false -> dict_get r (normalize_attr k2) = Some v2) /\
  (forall d, v2 = VDict d ->
     dict_get r (normalize_attr k2) = Some (VRec (BaseDictWrapper d))) /\
  get r k2 VNone = (wrap v2, r) /\
  get r k1 VNone = (wrap v2, r) /\
  fst (get (setitem (setitem self "attr .w. --spaces" (VInt 1))
                    "attr w/ spaces" (VInt 2))
           "attr w/ spaces" VNone) = VInt 2.
Proof.
  intros r. unfold r.
  assert (Hget : dict_get (setitem (setitem self k1 v1) k2 v2)
                   (normalize_attr k2) = Some (wrap v2))
    by (rewrite (setitem_eq _ k2); apply dict_get_set_same).
  repeat split.
  - rewrite (setitem_eq _ k2). apply count_key_set_same, setitem_wf, Hwf.
  - exact Hget.
  - intros Hv2. rewrite Hget, (wrap_not_dict v2 Hv2). reflexivity.
  - intros d ->. exact Hget.
  - apply get_after_setitem. reflexivity.
  - apply get_after_setitem. exact Hk.
  - rewrite get_after_setitem; reflexivity.
Qed.

Lemma setitem_collision_later_wins_witness :
  let r := setitem (setitem [] "attr .w. --spaces" (VInt 1))
                   "attr w/ spaces" (VInt 2) in
  count_key r "attr_w_spaces" = 1 /\
  dict_get r "attr_w_spaces" = Some (VInt 2).
Proof.
  pose proof (setitem_collision_later_wins
                [] "attr .w. --spaces" "attr w/ spaces" (VInt 1) (VInt 2)
                eq_refl eq_refl) as H.
  cbv zeta in H. destruct H as (Hcount & Hget & _).
  split; [exact Hcount | exact Hget].
Defined.

(** C1 as stated fails for a raw mapping: after the two assignments the
    entry under the shared key is a wrapper, not the mapping assigned. *)
Lemma setitem_collision_stores_wrapper :
  normalize_attr "attr .w. --spaces" = normalize_attr "attr w/ spaces" /\
  let v2 := VDict [("x" : str, VInt 1)] in
  let r := setitem (setitem [] "attr .w. --spaces" (VInt 1))
                   "attr w/ spaces" v2 in
  dict_get r (normalize_attr "attr w/ spaces") <> Some v2 /\
  dict_get r (normalize_attr "attr w/ spaces")
    = Some (VRec [("x" : str, VInt 1)]) /\
  fst (get r "attr w/ spaces" VNone) <> v2.
Proof.
  split; [reflexivity|]. cbv zeta. repeat split.
  - vm_compute. discriminate.
  - vm_compute. discriminate.
Qed.

(** *** Missing keys *)

(** C6, as amended: when the normalised key is not in the [__dict__],
    [self[key]] raises [KeyError(key)], with the key as it was given, and
    [get(key, default)] raises nothing and returns the default: the default
    itself unless it is a raw mapping, in which case the wrapper built from
    it.  Neither call changes the [__dict__]. *)
Theorem missing_key_getitem_raises_get_defaults
  (self : dict) (key : str) (default : value)
  (Hmiss : dict_get self (normalize_attr key) = None) :
  getitem self key = (Raise (KeyError key), self) /\
  get self key default = (wrap default, self) /\
  (is_dict default = false -> get self key default = (default, self)) /\
  (forall d, default = VDict d ->
     get self key default = (VRec (BaseDictWrapper d), self)).
Proof.
  assert (Hget : get self key default = (wrap default, self))
    by (unfold get; rewrite Hmiss; reflexivity).
  repeat split.
  - unfold getitem. rewrite Hmiss. reflexivity.
  - exact Hget.
  - intros Hd. rewrite Hget, (wrap_not_dict default Hd). reflexivity.
  - intros d ->. exact Hget.
Qed.

Lemma missing_key_getitem_raises_get_defaults_witness :
  let self := [("present" : str, VInt 7)] in
  getitem self "not there" = (Raise (KeyError "not there"), self) /\
  get self "not there" (VInt 0) = (VInt 0, self).
Proof.
  pose proof (missing_key_getitem_raises_get_defaults
                [("present" : str, VInt 7)] "not there" (VInt 0) eq_refl)
    as (Hitem & _ & Hget & _).
  split; [exact Hitem | exact (Hget eq_refl)].
Defined.

(** C6 as stated fails for a default that is a raw mapping: [get] hands back
    a wrapper built from the default, not the default. *)
Lemma get_default_raw_mapping_is_wrapped :
  let default := VDict [("x" : str, VInt 1)] in
  dict_get (@nil (str * value)) (normalize_attr "missing") = None /\
  fst (get [] "missing" default) = VRec [("x" : str, VInt 1)] /\
  fst (get [] "missing" default) <> default.
Proof.
  cbv zeta. repeat split. vm_compute. discriminate.
Qed.

(** *** Field access and indexed access *)

(** C5, as amended: for a key [f] that is its own normal form, that is in
    the [__dict__] with a value which is not a raw mapping, and that is not
    one of [__class__], [__dict__], [__weakref__], the field access [self.f]
    and the indexed access [self[f]] both give the stored value. *)
Theorem field_access_agrees_with_indexed_access
  (class_attr : str -> option value) (self : dict) (f : str) (v : value)
  (Hnorm : normalize_attr f = f)
  (Hname : data_descriptor self f = None)
  (Hin : dict_get self f = Some v)
  (Hraw : is_dict v = false) :
  getattr class_attr self f = Ok v /\
  getitem self f = (Ok v, self).
Proof.
  split.
  - unfold getattr. rewrite Hname, Hin. reflexivity.
  - unfold getitem. rewrite Hnorm, Hin, (wrap_not_dict v Hraw). reflexivity.
Qed.

Lemma field_access_agrees_with_indexed_access_witness :
  let self := setitem [] "attr w/ spaces" (VInt 78) in
  getattr (fun _ => None) self "attr_w_spaces" = Ok (VInt 78) /\
  getitem self "attr_w_spaces" = (Ok (VInt 78), self).
Proof.
  exact (field_access_agrees_with_indexed_access
           (fun _ => None) (setitem [] "attr w/ spaces" (VInt 78))
           "attr_w_spaces" (VInt 78) eq_refl eq_refl eq_refl eq_refl).
Defined.

(** C5 as stated fails once a raw mapping sits in the [__dict__], which the
    assignment [self.f = {}] puts there: [self.f] is the mapping, [self["f"]]
    a wrapper built from it. *)
Lemma field_access_differs_on_raw_mapping :
  let self := setattr [] "f" (VDict []) in
  normalize_attr "f" = ("f" : str) /\
  getattr (fun _ => None) self "f" = Ok (VDict []) /\
  fst (getitem self "f") = Ok (VRec []) /\
  getattr (fun _ => None) self "f" <> fst (getitem self "f").
Proof.
  cbv zeta. repeat split. vm_compute. discriminate.
Qed.

(** *** Wrapping at assignment *)

(** C7: [self[key] = val] stores, under the normalised key, a wrapper built
    from [val] exactly when [val] is a raw mapping, and [val] itself
    otherwise, a wrapper included.  The wrapper is built then, through
    [__setitem__] entry by entry, so that the mappings nested in [val] are
    wrapped in turn; what is stored is not a raw mapping, reading it back
    returns it as it is, and where the wrappers met inside [val] hold no raw
    mapping, no raw mapping is left at any depth. *)
Theorem setitem_wraps_raw_mappings
  (self : dict) (key : str) (val : value) :
  let self' := setitem self key val in
  dict_get self' (normalize_attr key) = Some (wrap val) /\
  (forall d, val = VDict d ->
     wrap val = VRec (fold_left (fun new kv => setitem new (fst kv) (snd kv))
                                d [])) /\
  (is_dict val = false -> wrap val = val) /\
  (forall fields, val = VRec fields -> wrap val = VRec fields) /\
  (is_dict val = true <-> wrap val <> val) /\
  is_dict (wrap val) = false /\
  getitem self' key = (Ok (wrap val), self') /\
  (wrappers_clean val = true -> no_raw (wrap val) = true).
Proof.
  intros self'. unfold self'. repeat split.
  - rewrite setitem_eq. apply dict_get_set_same.
  - intros d ->. reflexivity.
  - apply wrap_not_dict.
  - intros fields ->. reflexivity.
  - intros Hd. destruct val; simpl in *; discriminate.
  - intros Hne. destruct (is_dict val) eqn:E; [reflexivity|].
    exfalso. apply Hne, wrap_not_dict, E.
  - apply wrap_is_not_dict.
  - apply getitem_after_setitem. reflexivity.
  - apply wrap_no_raw.
Qed.

Lemma setitem_wraps_raw_mappings_witness :
  let val := VDict [("outer key" : str,
                     VDict [("inner-key" : str, VInt 1)])] in
  no_raw (wrap val) = true /\
  wrap val = VRec [("outer_key" : str, VRec [("inner_key" : str, VInt 1)])].
Proof.
  pose proof (setitem_wraps_raw_mappings [] "k"
                (VDict [("outer key" : str,
                         VDict [("inner-key" : str, VInt 1)])]))
    as (_ & _ & _ & _ & _ & _ & _ & Hdeep).
  split; [exact (Hdeep eq_refl) | reflexivity].
Defined.

(** *** Labels without a letter, digit or underscore *)

(** C10: a label without any letter, digit or underscore normalises to the
    empty text, so two assignments under such labels both write the entry of
    the empty key: after the first it holds the first value, after the
    second it holds the second, it is the only entry under that key and the
    other keys read as before.  The value is held in the form
    [__setitem__] stores: a raw mapping as the wrapper built from it. *)
Theorem setitem_no_word_labels_share_empty_key
  (self : dict) (l1 l2 : str) (v1 v2 : value)
  (H1 : forallb (fun c => negb (is_word c)) l1 = true)
  (H2 : forallb (fun c => negb (is_word c)) l2 = true)
  (Hwf : dict_wf self = true) :
  normalize_attr l1 = [] /\
  normalize_attr l2 = [] /\
  let r1 := setitem self l1 v1 in
  let r2 := setitem r1 l2 v2 in
  dict_get r1 [] = Some (wrap v1) /\
  dict_get r2 [] = Some (wrap v2) /\
  (is_dict v1 = false -> dict_get r1 [] = Some v1) /\
  (is_dict v2 = false -> dict_get r2 [] = Some v2) /\
  count_key r2 [] = 1 /\
  (forall k, k <> [] -> dict_get r2 k = dict_get self k).
Proof.
  pose proof (normalize_attr_no_word l1 H1) as N1.
  pose proof (normalize_attr_no_word l2 H2) as N2.
  split; [exact N1|]. split; [exact N2|]. cbv zeta.
  rewrite !setitem_eq, N1, N2. repeat split.
  - apply dict_get_set_same.
  - apply dict_get_set_same.
  - intros Hv. rewrite dict_get_set_same, (wrap_not_dict v1 Hv). reflexivity.
  - intros Hv. rewrite dict_get_set_same, (wrap_not_dict v2 Hv). reflexivity.
  - apply count_key_set_same, dict_wf_set, Hwf.
  - intros k Hk. rewrite !dict_get_set_other by exact Hk. reflexivity.
Qed.

Lemma setitem_no_word_labels_share_empty_key_witness :
  normalize_attr "---" = [] /\
  normalize_attr "!!!" = [] /\
  setitem (setitem [] "---" (VInt 1)) "!!!" (VInt 2) = [([], VInt 2)].
Proof.
  pose proof (setitem_no_word_labels_share_empty_key
                [] "---" "!!!" (VInt 1) (VInt 2) eq_refl eq_refl eq_refl)
    as (N1 & N2 & _).
  split; [exact N1|]. split; [exact N2 | reflexivity].
Defined.

End RecordFacts.

(** ** The tag registry *)

Section RegistryFacts.
Import DynRecord Registry.

Lemma constructors_add_representer (Cls : pyclass) (r : representer)
  (reg : registry) :
  yaml_constructors (add_representer Cls r reg) = yaml_constructors reg.
Proof. reflexivity. Qed.

Lemma constructors_yaml_register (k : kind) (Cls : pyclass) (reg : registry) :
  yaml_constructors (yaml_register k Cls reg) =
  dict_set (yaml_constructors reg) (class_tag Cls) (constructor_of k Cls).
Proof. destruct k; reflexivity. Qed.

Lemma construct_object_add (reg : registry) (ld : loader) (tag : str)
  (c : constructor) (n : node) :
  node_tag n = tag ->
  construct_object (add_constructor tag c reg) ld n = c ld n.
Proof.
  intros Htag. unfold construct_object, add_constructor. simpl.
  rewrite Htag, dict_get_set_same. reflexivity.
Qed.

(** *** Tags that are not available *)

(** C9: once [yaml_not_available_tag(tag, reason)] has run, constructing any
    node that carries the tag, whatever its kind and content, raises
    [NotAvailableTagError(tag, reason)]; so a node tagged [!Legacy] after
    [yaml_not_available_tag("Legacy", "removed in v3")] fails with the reason
    "removed in v3". *)
Theorem not_available_tag_raises
  (reg : registry) (ld : loader) (tag reason : str) (n : node)
  (Htag : node_tag n = lit "!" ++ tag) :
  construct_object (yaml_not_available_tag tag reason reg) ld n =
    Raise (NotAvailableTagError tag reason) /\
  NotAvailableTagError tag reason =
    UserError "NotAvailableTagError" [tag; reason] /\
  (forall text,
     construct_object (yaml_not_available_tag "Legacy" "removed in v3" reg) ld
       (ScalarNode "!Legacy" text) =
     Raise (NotAvailableTagError "Legacy" "removed in v3")).
Proof.
  repeat split.
  - unfold yaml_not_available_tag. rewrite construct_object_add by exact Htag.
    reflexivity.
  - intros text. unfold yaml_not_available_tag.
    rewrite construct_object_add by reflexivity. reflexivity.
Qed.

Lemma not_available_tag_raises_witness :
  construct_object
    (yaml_not_available_tag "Legacy" "removed in v3" empty_registry)
    scalar_loader (MappingNode "!Legacy" []) =
  Raise (UserError "NotAvailableTagError"
           ["Legacy" : str; "removed in v3" : str]).
Proof.
  exact (proj1 (not_available_tag_raises empty_registry scalar_loader
                  "Legacy" "removed in v3" (MappingNode "!Legacy" [])
                  eq_refl)).
Defined.

(** *** Registering a tag twice *)

(** C3, as amended: decorating a second class whose tag and kind are those
    of a class decorated before is not refused and raises nothing: the
    constructor of the second class takes the place of the first under the
    tag, which keeps a single entry, and nodes carrying the tag are from then
    on built by the second class. *)
Theorem second_registration_replaces_first
  (k : kind) (reg : registry) (Cls1 Cls2 : pyclass) (ld : loader) (n : node)
  (Hwf : dict_wf (yaml_constructors reg) = true)
  (Hsame : class_tag Cls1 = class_tag Cls2)
  (Htag : node_tag n = class_tag Cls1) :
  let reg2 := yaml_register k Cls2 (yaml_register k Cls1 reg) in
  dict_get (yaml_constructors reg2) (class_tag Cls1)
    = Some (constructor_of k Cls2) /\
  count_key (yaml_constructors reg2) (class_tag Cls1) = 1 /\
  construct_object reg2 ld n = constructor_of k Cls2 ld n /\
  (forall tag, tag <> class_tag Cls1 ->
     dict_get (yaml_constructors reg2) tag
     = dict_get (yaml_constructors reg) tag).
Proof.
  intros reg2. unfold reg2.
  assert (Hget : dict_get
            (yaml_constructors (yaml_register k Cls2 (yaml_register k Cls1 reg)))
            (class_tag Cls1) = Some (constructor_of k Cls2)).
  { rewrite constructors_yaml_register, Hsame. apply dict_get_set_same. }
  repeat split.
  - exact Hget.
  - rewrite !constructors_yaml_register, Hsame.
    apply count_key_set_same, dict_wf_set, Hwf.
  - unfold construct_object. rewrite Htag, Hget. reflexivity.
  - intros tag Hne. rewrite !constructors_yaml_register, <- Hsame.
    rewrite !dict_get_set_other by exact Hne. reflexivity.
Qed.

Lemma second_registration_replaces_first_witness :
  construct_object
    (yaml_map (map_class 2 (VInt 2)) (yaml_map (map_class 1 (VInt 1))
       empty_registry))
    scalar_loader (MappingNode "!A" []) = Ok (VInt 2).
Proof.
  pose proof (second_registration_replaces_first Map empty_registry
                (map_class 1 (VInt 1)) (map_class 2 (VInt 2)) scalar_loader
                (MappingNode "!A" []) eq_refl eq_refl eq_refl)
    as (_ & _ & Hbuild & _).
  exact Hbuild.
Defined.

(** C3 as stated fails: with [!A] bound to a mapping class already, binding
    it to another mapping class goes through, the table still has one entry,
    and a [!A] node is then built by the second class. *)
Lemma second_registration_is_not_refused :
  let first := map_class 1 (VInt 1) in
  let second := map_class 2 (VInt 2) in
  let reg1 := yaml_map first empty_registry in
  let reg2 := yaml_map second reg1 in
  class_tag first = class_tag second /\
  construct_object reg1 scalar_loader (MappingNode "!A" []) = Ok (VInt 1) /\
  construct_object reg2 scalar_loader (MappingNode "!A" []) = Ok (VInt 2) /\
  dict_keys (yaml_constructors reg2) = ["!A" : str] /\
  map fst (yaml_representers reg2) = [1; 2]%nat.
Proof.
  cbv zeta. repeat split.
Qed.

(** *** Scalar classes *)

Lemma scalar_constructor_classmethod (Cls : pyclass) (ld : loader) (n : node)
  (f : value -> result value) (text : str) :
  from_scalar Cls = ClassMethod f ->
  construct_scalar ld n = Ok text ->
  scalar_constructor Cls ld n = f (VStr text).
Proof.
  intros Hf Hn. unfold scalar_constructor. rewrite Hn, Hf. reflexivity.
Qed.

Lemma scalar_constructor_plain_method (Cls : pyclass) (ld : loader) (n : node)
  (f : value -> value -> result value) (self : value) (text : str) :
  from_scalar Cls = PlainMethod f ->
  cls_new Cls = Ok self ->
  construct_scalar ld n = Ok text ->
  scalar_constructor Cls ld n =
  call_on_instance (from_seq Cls) "from_seq" self (VStr text).
Proof.
  intros Hf Hnew Hn. unfold scalar_constructor. rewrite Hn, Hf, Hnew.
  reflexivity.
Qed.

(** C2 at a class whose [from_scalar] is a normal method, as the docstring
    of [yaml_scalar] allows: the constructor installed for its tag does not
    call [from_scalar] on [Cls()] but looks up [from_seq], which the class
    does not have, and [AttributeError] is raised where
    [Cls().from_scalar("21.5")] would have returned an instance.  With
    [from_scalar] a classmethod the constructor does call it. *)
Theorem scalar_constructor_calls_from_seq :
  let reg := yaml_scalar plain_scalar_class empty_registry in
  let n := ScalarNode "!Celsius" "21.5" in
  class_tag plain_scalar_class = ("!Celsius" : str) /\
  construct_object reg scalar_loader n = Raise (AttributeError "from_seq") /\
  call_on_instance (from_scalar plain_scalar_class) "from_scalar"
    (VRec []) (VStr "21.5")
    = Ok (VRec [("degrees" : str, VStr "21.5")]) /\
  construct_object (yaml_scalar class_method_scalar_class empty_registry)
    scalar_loader (ScalarNode "!Kelvin" "294.65")
    = Ok (VRec [("degrees" : str, VStr "294.65")]).
Proof.
  cbv zeta. repeat split.
Qed.

End RegistryFacts.

(** * Further properties *)

(** ** The normaliser: shape of the result *)

Section NormalizerMore.
Import Normalizer.

Lemma word_prefix_app_sep (a b : str) (c : ascii) :
  is_word c = false ->
  word_prefix (a ++ c :: b) = word_prefix a /\
  word_rest (a ++ c :: b) = word_rest a ++ c :: b.
Proof.
  intros Hc. induction a as [|x a [IHp IHr]]; simpl.
  - rewrite Hc. split; reflexivity.
  - destruct (is_word x); [|split; reflexivity].
    rewrite IHp, IHr. split; reflexivity.
Qed.

Lemma findall_app_sep (a b : str) (c : ascii) :
  is_word c = false -> findall (a ++ c :: b) = findall a ++ findall b.
Proof.
  intros Hc. induction a as [|x a E IH|x a E IH] using findall_ind.
  - simpl. rewrite (findall_skip c b Hc). simp findall. reflexivity.
  - simpl. rewrite !(findall_skip x _ E). exact IH.
  - simpl. rewrite !(findall_word x _ E).
    destruct (word_prefix_app_sep a b c Hc) as [-> ->].
    rewrite IH. reflexivity.
Qed.

Lemma findall_skip_seps (seps b : str) :
  forallb (fun c => negb (is_word c)) seps = true ->
  findall (seps ++ b) = findall b.
Proof.
  induction seps as [|c seps IH]; simpl; intros H; [reflexivity|].
  apply andb_prop in H as [Hc Hs]. apply negb_true_iff in Hc.
  rewrite (findall_skip c _ Hc). exact (IH Hs).
Qed.

Lemma findall_app_seps (a seps b : str) :
  seps <> [] ->
  forallb (fun c => negb (is_word c)) seps = true ->
  findall (a ++ seps ++ b) = findall a ++ findall b.
Proof.
  intros Hne H. destruct seps as [|c seps]; [congruence|].
  simpl in H. apply andb_prop in H as [Hc Hs]. apply negb_true_iff in Hc.
  simpl. rewrite (findall_app_sep a _ c Hc), (findall_skip_seps seps b Hs).
  reflexivity.
Qed.

Lemma findall_nil_no_word (s : str) :
  findall s = [] -> forallb (fun c => negb (is_word c)) s = true.
Proof.
  induction s as [|c s E IH|c s E IH] using findall_ind; intros H.
  - reflexivity.
  - rewrite (findall_skip c s E) in H. simpl. rewrite E, (IH H). reflexivity.
  - rewrite (findall_word c s E) in H. discriminate.
Qed.

Lemma join_length_cons (sep p : str) (ps : list str) :
  length (join sep (p :: ps)) <= length p + length sep + length (join sep ps).
Proof.
  destruct ps as [|q ps]; [simpl; lia|].
  rewrite join_cons by discriminate. rewrite !length_app. lia.
Qed.

Lemma join_findall_length (sep s : str) :
  length sep = 1 ->
  length (join sep (findall s)) <= length s /\
  match s with
  | [] => True
  | c :: _ => is_word c = false -> length (join sep (findall s)) < length s
  end.
Proof.
  intros Hsep.
  induction s as [|c s E [IH _]|c s E [IH IHhead]] using findall_ind.
  - simp findall. simpl. split; [lia | exact I].
  - rewrite (findall_skip c s E). simpl length. split; [lia | intros _; lia].
  - rewrite (findall_word c s E). split; [|congruence].
    pose proof (word_split s) as Hsplit.
    assert (Hlen : length s = length (word_prefix s) + length (word_rest s))
      by (rewrite <- Hsplit at 1; apply length_app).
    pose proof (word_rest_head s) as Hhead.
    destruct (word_rest s) as [|x r] eqn:Er.
    + simp findall. simpl. lia.
    + specialize (IHhead Hhead).
      pose proof (join_length_cons sep (c :: word_prefix s) (findall (x :: r))).
      simpl length in *. lia.
Qed.

(** X1: the normalised label is made of letters, digits and underscores
    only, and is never longer than the label. *)
Theorem normalize_attr_word_characters_no_longer (s : str) :
  forallb is_word (normalize_attr s) = true /\
  length (normalize_attr s) <= length s.
Proof.
  split; [apply normalize_attr_all_word|].
  apply (join_findall_length "_" s eq_refl).
Qed.

(** X2: the labels that [normalize_attr] leaves as they are, are exactly
    those made of letters, digits and underscores only. *)
Theorem normalize_attr_fixed_iff (s : str) :
  normalize_attr s = s <-> forallb is_word s = true.
Proof.
  split.
  - intros H. rewrite <- H. apply normalize_attr_all_word.
  - apply normalize_attr_fixed.
Qed.

(** X3: the normalised label is empty exactly when the label has no letter,
    digit or underscore. *)
Theorem normalize_attr_empty_iff (s : str) :
  normalize_attr s = [] <-> forallb (fun c => negb (is_word c)) s = true.
Proof.
  split; [|apply normalize_attr_no_word].
  intros H. apply findall_nil_no_word.
  destruct (findall s) as [|p ps] eqn:E; [reflexivity|].
  exfalso. unfold normalize_attr in H. rewrite E in H.
  assert (Hw : word_text (join "_" (p :: ps))).
  { apply join_word_text; [|discriminate].
    rewrite <- E. apply findall_word_text. }
  destruct Hw as [Hne _]. exact (Hne H).
Qed.

(** X4: what stands between two parts of a label does not matter as long as
    it is a non-empty stretch without letter, digit or underscore: the
    normalised label is made from the matches of the part before followed by
    the matches of the part after, so two labels that differ in such
    stretches only normalise to the same key. *)
Theorem normalize_attr_separators_collapse (a b seps1 seps2 : str)
  (Hne1 : seps1 <> []) (Hne2 : seps2 <> [])
  (H1 : forallb (fun c => negb (is_word c)) seps1 = true)
  (H2 : forallb (fun c => negb (is_word c)) seps2 = true) :
  normalize_attr (a ++ seps1 ++ b) = join "_" (findall a ++ findall b) /\
  normalize_attr (a ++ seps1 ++ b) = normalize_attr (a ++ seps2 ++ b).
Proof.
  unfold normalize_attr.
  rewrite (findall_app_seps a seps1 b Hne1 H1).
  rewrite (findall_app_seps a seps2 b Hne2 H2).
  split; reflexivity.
Qed.

Lemma normalize_attr_separators_collapse_witness :
  normalize_attr "attr w/ spaces" = normalize_attr "attr w-spaces".
Proof.
  assert (Hne2 : lit "/ " <> []) by discriminate.
  assert (Hne3 : lit "-" <> []) by discriminate.
  exact (proj2 (normalize_attr_separators_collapse
                  "attr w" "spaces" "/ " "-" Hne2 Hne3 eq_refl eq_refl)).
Defined.

(** X5: a stretch without letter, digit or underscore at either end of the
    label is ignored. *)
Theorem normalize_attr_ignores_outer_separators (before s after : str)
  (Hb : forallb (fun c => negb (is_word c)) before = true)
  (Ha : forallb (fun c => negb (is_word c)) after = true) :
  normalize_attr (before ++ s ++ after) = normalize_attr s.
Proof.
  unfold normalize_attr. rewrite (findall_skip_seps before _ Hb).
  destruct after as [|c after]; [rewrite app_nil_r; reflexivity|].
  replace (s ++ c :: after) with (s ++ (c :: after) ++ []) by
    (rewrite app_nil_r; reflexivity).
  rewrite findall_app_seps by (discriminate || exact Ha).
  simp findall. rewrite app_nil_r. reflexivity.
Qed.

Lemma normalize_attr_ignores_outer_separators_witness :
  normalize_attr "  --attr w/ spaces!" = normalize_attr "attr w/ spaces".
Proof.
  exact (normalize_attr_ignores_outer_separators
           "  --" "attr w/ spaces" "!" eq_refl eq_refl).
Defined.

End NormalizerMore.

(** ** The dictionary wrapper: invariant, lookups, rebuilding *)

Section RecordMore.
Import Normalizer DynRecord.

Lemma dict_mem_app {V : Type} (a b : list (str * V)) (k : str) :
  dict_mem (a ++ b) k = dict_mem a k || dict_mem b k.
Proof.
  unfold dict_mem. induction a as [|[k' v'] a IH]; simpl; [reflexivity|].
  destruct (str_eqb k' k); [reflexivity | exact IH].
Qed.

Lemma dict_set_absent {V : Type} (d : list (str * V)) (k : str) (v : V) :
  dict_mem d k = false -> dict_set d k v = d ++ [(k, v)].
Proof.
  unfold dict_mem. induction d as [|[k' v'] d IH]; simpl; [reflexivity|].
  destruct (str_eqb k' k); [discriminate|].
  intros H. rewrite (IH H). reflexivity.
Qed.

Lemma dict_keys_set {V : Type} (d : list (str * V)) (k : str) (v : V) :
  dict_keys (dict_set d k v) =
  if dict_mem d k then dict_keys d else dict_keys d ++ [k].
Proof.
  unfold dict_mem, dict_keys. induction d as [|[k' v'] d IH]; simpl;
    [reflexivity|].
  destruct (str_eqb k' k) eqn:E; simpl; [reflexivity|].
  rewrite IH. destruct (dict_get d k); reflexivity.
Qed.

Lemma dict_wf_app_absent {V : Type} (a r : list (str * V)) (k : str) (v : V) :
  dict_wf (a ++ (k, v) :: r) = true -> dict_mem a k = false.
Proof.
  induction a as [|[k0 v0] a IH]; simpl; [reflexivity|].
  intros H. apply andb_prop in H as [Hk0 Hwf].
  apply negb_true_iff in Hk0. rewrite dict_mem_app in Hk0.
  apply orb_false_elim in Hk0 as [_ Hk0].
  unfold dict_mem in Hk0 |- *. simpl in Hk0 |- *.
  destruct (str_eqb k k0) eqn:E; [discriminate|].
  destruct (str_eqb k0 k) eqn:E'.
  - apply str_eqb_eq in E'. subst k0. rewrite str_eqb_refl in E. discriminate.
  - apply (IH Hwf).
Qed.

Lemma keys_normalized_set (d : dict) (k : str) (v : value) :
  keys_normalized d = true -> normalize_attr k = k ->
  keys_normalized (dict_set d k v) = true.
Proof.
  unfold keys_normalized. intros Hd Hk.
  induction d as [|[k' v'] d IH]; simpl in *.
  - rewrite Hk, str_eqb_refl. reflexivity.
  - apply andb_prop in Hd as [Hk' Hd].
    destruct (str_eqb k' k); simpl.
    + rewrite Hk', Hd. reflexivity.
    + rewrite Hk', (IH Hd). reflexivity.
Qed.

Lemma setitem_store_ok (self : dict) (key : str) (val : value) :
  store_ok self = true -> store_ok (setitem self key val) = true.
Proof.
  unfold store_ok. intros H.
  apply andb_prop in H as [H Hraw]. apply andb_prop in H as [Hwf Hkeys].
  rewrite setitem_eq.
  rewrite (dict_wf_set self _ _ Hwf).
  rewrite (keys_normalized_set self _ _ Hkeys
             (normalize_attr_fixed _ (normalize_attr_all_word key))).
  simpl. unfold no_raw_values.
  apply (forallb_dict_set (fun v => negb (is_dict v))); [exact Hraw|].
  rewrite wrap_is_not_dict. reflexivity.
Qed.

Lemma from_map_store_ok (d new : dict) :
  store_ok new = true -> store_ok (AutoMap_from_map new d) = true.
Proof.
  unfold AutoMap_from_map. revert new.
  induction d as [|kv d IH]; intros new H; simpl; [exact H|].
  apply IH, setitem_store_ok, H.
Qed.

(** X6: [__setitem__], [__init__] and [from_map] keep the store in order: if
    every key of the [__dict__] is its own normal form, no key occurs twice
    and no value is a raw mapping, the same holds after an assignment and
    after [from_map]; and it holds of every [BaseDictWrapper(d)]. *)
Theorem store_stays_normalized
  (self d : dict) (key : str) (val : value)
  (Hok : store_ok self = true) :
  store_ok (setitem self key val) = true /\
  store_ok (AutoMap_from_map self d) = true /\
  store_ok (BaseDictWrapper d) = true.
Proof.
  split; [apply setitem_store_ok, Hok|].
  split; [apply from_map_store_ok, Hok|].
  apply (from_map_store_ok d []). reflexivity.
Qed.

Lemma store_stays_normalized_witness :
  store_ok (setitem [("a_b" : str, VInt 1)] "a b" (VDict [])) = true.
Proof.
  exact (proj1 (store_stays_normalized
                  [("a_b" : str, VInt 1)] [] "a b" (VDict []) eq_refl)).
Defined.

(** X7: reading after an assignment.  [self[key] = val] followed by
    [self[key']] gives the value stored when [key'] has the normal form of
    [key], and otherwise what [self[key']] gave before the assignment, an
    error included. *)
Theorem getitem_after_setitem_any_key
  (self : dict) (key key' : str) (val : value) :
  let self' := setitem self key val in
  getitem self' key' =
  if str_eqb (normalize_attr key') (normalize_attr key)
  then (Ok (wrap val), self')
  else (fst (getitem self key'), self').
Proof.
  intros self'. unfold self'.
  destruct (str_eqb (normalize_attr key') (normalize_attr key)) eqn:E.
  - apply str_eqb_eq in E. apply getitem_after_setitem, E.
  - apply str_eqb_neq in E. unfold getitem.
    rewrite setitem_eq, dict_get_set_other by exact E.
    destruct (dict_get self (normalize_attr key')); reflexivity.
Qed.

(** X8: [get] against [__getitem__].  Where [self[key]] returns a value,
    [get(key, default)] returns the same value whatever the default; where
    it raises, it raises [KeyError(key)] and [get] returns the default,
    wrapped if it is a raw mapping.  Neither ever returns a raw mapping, and
    neither changes the [__dict__]. *)
Theorem get_agrees_with_getitem (self : dict) (key : str) (default : value) :
  (forall v, fst (getitem self key) = Ok v ->
     fst (get self key default) = v /\ is_dict v = false) /\
  (forall e, fst (getitem self key) = Raise e ->
     e = KeyError key /\ fst (get self key default) = wrap default) /\
  is_dict (fst (get self key default)) = false /\
  snd (get self key default) = self /\
  snd (getitem self key) = self.
Proof.
  unfold getitem, get.
  destruct (dict_get self (normalize_attr key)) as [elem|]; simpl.
  - split; [|split; [|split; [|split]]]; try reflexivity.
    + intros v Hv. injection Hv as <-.
      split; [reflexivity | apply wrap_is_not_dict].
    + intros e He. discriminate.
    + apply wrap_is_not_dict.
  - split; [|split; [|split; [|split]]]; try reflexivity.
    + intros v Hv. discriminate.
    + intros e He. injection He as <-. split; reflexivity.
    + apply wrap_is_not_dict.
Qed.

Lemma from_map_lookup_skip (d new : dict) (nkey : str) :
  no_key_for nkey d = true ->
  dict_get (AutoMap_from_map new d) nkey = dict_get new nkey.
Proof.
  unfold AutoMap_from_map, no_key_for. revert new.
  induction d as [|[k v] d IH]; intros new H; simpl in *; [reflexivity|].
  apply andb_prop in H as [Hk Hd]. apply negb_true_iff, str_eqb_neq in Hk.
  rewrite (IH _ Hd), setitem_eq.
  apply dict_get_set_other. congruence.
Qed.

Lemma from_map_app (new d1 d2 : dict) :
  AutoMap_from_map new (d1 ++ d2) =
  AutoMap_from_map (AutoMap_from_map new d1) d2.
Proof. unfold AutoMap_from_map. apply fold_left_app. Qed.

(** X9: building from a mapping, the last entry wins.  If [(k, v)] is an entry
    of the mapping and no entry after it has a key with the normal form of
    [k], then in [BaseDictWrapper(d)], and in what [from_map] returns, every
    key [key'] with that normal form reads the value stored for [v]:
    the entries before it that collide with it are overwritten. *)
Theorem from_map_last_entry_wins
  (new d1 d2 : dict) (k key' : str) (v : value)
  (Hkey : normalize_attr key' = normalize_attr k)
  (Hlast : no_key_for (normalize_attr k) d2 = true) :
  fst (getitem (AutoMap_from_map new (d1 ++ (k, v) :: d2)) key')
    = Ok (wrap v) /\
  fst (getitem (BaseDictWrapper (d1 ++ (k, v) :: d2)) key') = Ok (wrap v).
Proof.
  assert (H : forall new,
    fst (getitem (AutoMap_from_map new (d1 ++ (k, v) :: d2)) key')
      = Ok (wrap v)).
  { intros new0. unfold getitem.
    rewrite Hkey, from_map_app.
    change (AutoMap_from_map (AutoMap_from_map new0 d1) ((k, v) :: d2))
      with (AutoMap_from_map (setitem (AutoMap_from_map new0 d1) k v) d2).
    rewrite (from_map_lookup_skip d2 _ _ Hlast).
    rewrite setitem_eq, dict_get_set_same. simpl.
    rewrite wrap_idempotent. reflexivity. }
  split; [apply H | apply (H [])].
Qed.

Lemma from_map_last_entry_wins_witness :
  fst (getitem (BaseDictWrapper [("attr .w. --spaces" : str, VInt 1);
                                 ("attr w/ spaces" : str, VInt 2);
                                 ("other" : str, VInt 3)])
               "attr_w_spaces") = Ok (VInt 2).
Proof.
  exact (proj2 (from_map_last_entry_wins
                  [] [("attr .w. --spaces" : str, VInt 1)]
                  [("other" : str, VInt 3)]
                  "attr w/ spaces" "attr_w_spaces" (VInt 2)
                  eq_refl eq_refl)).
Defined.

(** X10: building from a mapping touches nothing else.  A key whose normal
    form is the normal form of no key of [d] reads after [from_map] as it
    did in the instance [cls()] made, and is missing from
    [BaseDictWrapper(d)]: indexing it raises [KeyError]. *)
Theorem from_map_leaves_other_keys
  (new d : dict) (key : str)
  (Hother : no_key_for (normalize_attr key) d = true) :
  getitem (AutoMap_from_map new d) key
    = (fst (getitem new key), AutoMap_from_map new d) /\
  getitem (BaseDictWrapper d) key = (Raise (KeyError key), BaseDictWrapper d).
Proof.
  split.
  - unfold getitem. rewrite (from_map_lookup_skip d new _ Hother).
    destruct (dict_get new (normalize_attr key)); reflexivity.
  - unfold getitem.
    change (BaseDictWrapper d) with (AutoMap_from_map [] d).
    rewrite (from_map_lookup_skip d [] _ Hother). reflexivity.
Qed.

Lemma from_map_leaves_other_keys_witness :
  fst (getitem (AutoMap_from_map [("kept" : str, VInt 0)]
                                 [("a b" : str, VInt 1)]) "kept")
  = Ok (VInt 0).
Proof.
  exact (f_equal fst (proj1 (from_map_leaves_other_keys
                  [("kept" : str, VInt 0)] [("a b" : str, VInt 1)]
                  "kept" eq_refl))).
Defined.

Lemma from_map_appends (r acc : dict) :
  dict_wf (acc ++ r) = true ->
  keys_normalized r = true ->
  no_raw_values r = true ->
  AutoMap_from_map acc r = acc ++ r.
Proof.
  unfold AutoMap_from_map, keys_normalized, no_raw_values. revert acc.
  induction r as [|[k v] r IH]; intros acc Hwf Hkeys Hraw; simpl in *.
  - symmetry. apply app_nil_r.
  - apply andb_prop in Hkeys as [Hk Hkeys]. apply str_eqb_eq in Hk.
    apply andb_prop in Hraw as [Hv Hraw]. apply negb_true_iff in Hv.
    rewrite setitem_eq, Hk, (wrap_not_dict v Hv).
    rewrite (dict_set_absent acc k v (dict_wf_app_absent acc r k v Hwf)).
    rewrite IH; [rewrite <- app_assoc; reflexivity | | exact Hkeys | exact Hraw].
    rewrite <- app_assoc. exact Hwf.
Qed.

(** X11: [to_map] then [from_map] gives the record back.  For a [__dict__]
    whose keys are their own normal forms, without repeated key and without
    raw mapping among its values, which is how [__setitem__] leaves it,
    [from_map] on a fresh empty instance rebuilds exactly the [__dict__]
    that [to_map] returned, in the same order, and so does
    [BaseDictWrapper(...)]. *)
Theorem from_map_of_to_map (self : dict) (Hok : store_ok self = true) :
  AutoMap_from_map [] (AutoMap_to_map self) = self /\
  BaseDictWrapper self = self /\
  wrap (VDict self) = VRec self.
Proof.
  unfold store_ok in Hok.
  apply andb_prop in Hok as [H Hraw]. apply andb_prop in H as [Hwf Hkeys].
  assert (E : AutoMap_from_map [] self = self)
    by (apply (from_map_appends self []); assumption).
  split; [exact E|]. split; [exact E|].
  simpl. f_equal. exact E.
Qed.

Lemma from_map_of_to_map_witness :
  let self := BaseDictWrapper [("attr w/ spaces" : str, VInt 78);
                               ("nested" : str, VDict [("x y" : str, VNone)])] in
  AutoMap_from_map [] (AutoMap_to_map self) = self.
Proof.
  exact (proj1 (from_map_of_to_map
                  (BaseDictWrapper
                     [("attr w/ spaces" : str, VInt 78);
                      ("nested" : str, VDict [("x y" : str, VNone)])])
                  eq_refl)).
Defined.

(** X12: iteration order.  [__iter__] and [keys] give the keys in the order
    of their first assignment: assigning under a key whose normal form is
    already there leaves the sequence of keys as it is, assigning under a
    new one puts its normal form last. *)
Theorem iter_keys_after_setitem (self : dict) (key : str) (val : value) :
  iter_keys (setitem self key val) =
  if dict_mem self (normalize_attr key)
  then iter_keys self
  else iter_keys self ++ [normalize_attr key].
Proof.
  unfold iter_keys. rewrite setitem_eq. apply dict_keys_set.
Qed.

Lemma data_descriptor_name (self self' : dict) (name : str) :
  data_descriptor self name = None -> data_descriptor self' name = None.
Proof.
  unfold data_descriptor.
  destruct (str_eqb name "__class__"); [discriminate|].
  destruct (str_eqb name "__dict__"); [discriminate|].
  destruct (str_eqb name "__weakref__"); [discriminate | reflexivity].
Qed.

(** X20: the two ways in, the two ways out, as in the docstring of
    [auto_map].  What [self[key] = val] stores is read by the attribute
    named by the normal form of [key]; what the attribute assignment
    [self.f = v] stores is read by [self[key]] for every [key] with normal
    form [f], wrapped if it is a raw mapping.  The names [__class__],
    [__dict__] and [__weakref__] are left aside. *)
Theorem item_and_attribute_access_meet
  (class_attr : str -> option value) (self : dict) (key : str)
  (val : value)
  (Hname : data_descriptor self (normalize_attr key) = None) :
  getattr class_attr (setitem self key val) (normalize_attr key)
    = Ok (wrap val) /\
  (forall key', normalize_attr key' = normalize_attr key ->
     fst (getitem (setattr self (normalize_attr key) val) key')
     = Ok (wrap val)) /\
  getattr class_attr (setattr self (normalize_attr key) val)
    (normalize_attr key) = Ok val.
Proof.
  repeat split.
  - unfold getattr.
    rewrite (data_descriptor_name self _ _ Hname).
    rewrite setitem_eq, dict_get_set_same. reflexivity.
  - intros key' Hkey'. unfold getitem, setattr.
    rewrite Hkey', dict_get_set_same. reflexivity.
  - unfold getattr, setattr.
    rewrite (data_descriptor_name self _ _ Hname).
    rewrite dict_get_set_same. reflexivity.
Qed.

Lemma item_and_attribute_access_meet_witness :
  let a := setitem [] "attr w/ spaces" (VInt 78) in
  getattr (fun _ => None) a "attr_w_spaces" = Ok (VInt 78) /\
  fst (getitem (setattr a "attr_w_spaces" (VInt 82)) "attr .w. --spaces")
    = Ok (VInt 82).
Proof.
  pose proof (item_and_attribute_access_meet (fun _ => None)
                [] "attr w/ spaces" (VInt 78) eq_refl) as (Hattr & _ & _).
  pose proof (item_and_attribute_access_meet (fun _ => None)
                (setitem [] "attr w/ spaces" (VInt 78))
                "attr .w. --spaces" (VInt 82) eq_refl) as (_ & Hitem & _).
  split; [exact Hattr | exact (Hitem _ eq_refl)].
Defined.

Lemma concat_items_join (sep : str) (items : list str) :
  items <> [] ->
  concat (map (fun i => i ++ sep) items) = join sep items ++ sep.
Proof.
  induction items as [|i items IH]; intros Hne; [congruence|].
  destruct items as [|j items].
  - simpl. rewrite app_nil_r. reflexivity.
  - rewrite join_cons by discriminate.
    change (concat (map (fun i => i ++ sep) (i :: j :: items)))
      with ((i ++ sep) ++ concat (map (fun i => i ++ sep) (j :: items))).
    rewrite IH by discriminate. rewrite <- !app_assoc. reflexivity.
Qed.

Lemma repr_fold (format_value : value -> str) (self : dict) (r : str) :
  fold_left
    (fun r kv => r ++ (fst kv ++ lit "=" ++ format_value (snd kv) ++ lit ", "))
    self r
  = r ++ concat (map (fun i => i ++ lit ", ")
                   (map (fun kv => fst kv ++ lit "=" ++ format_value (snd kv))
                      self)).
Proof.
  revert r. induction self as [|kv self IH]; intros r.
  - symmetry. apply app_nil_r.
  - cbn [fold_left map concat]. rewrite IH, <- !app_assoc. reflexivity.
Qed.

Lemma firstn_drop_suffix (x suffix : str) :
  firstn (length (x ++ suffix) - length suffix) (x ++ suffix) = x.
Proof.
  rewrite length_app, Nat.add_sub, firstn_app, Nat.sub_diag, firstn_all.
  simpl. apply app_nil_r.
Qed.

(** X13: the text [__repr__] builds.  For a [__dict__] with entries it is the
    class name, an opening bracket, the entries as [key=value] separated by
    a comma and a blank, and a closing bracket.  For an empty [__dict__]
    the two characters dropped are the opening bracket and the last letter
    of the class name: [BaseDictWrapper()] prints as [BaseDictWrappe)]. *)
Theorem repr_text (format_value : value -> str) (class_name : str)
  (self : dict) :
  (self <> [] ->
   repr format_value class_name self =
   class_name ++ lit "(" ++
   join ", " (map (fun kv => fst kv ++ lit "=" ++ format_value (snd kv)) self)
   ++ lit ")") /\
  repr format_value class_name [] = removelast class_name ++ lit ")" /\
  repr format_value "BaseDictWrapper" [] = "BaseDictWrappe)".
Proof.
  split; [|split; [|reflexivity]].
  - intros Hne. unfold repr. cbv zeta.
    rewrite repr_fold, concat_items_join
      by (destruct self; [congruence | discriminate]).
    rewrite !app_assoc. change 2 with (length (lit ", ")).
    rewrite firstn_drop_suffix. reflexivity.
  - unfold repr. cbn [fold_left]. cbv zeta. f_equal.
    rewrite removelast_firstn_len, firstn_app, length_app.
    change (length (lit "(")) with 1.
    replace (length class_name + 1 - 2) with (pred (length class_name))
      by lia.
    replace (pred (length class_name) - length class_name) with 0 by lia.
    apply app_nil_r.
Qed.

Lemma repr_text_witness :
  repr (fun _ => lit "?") "A" [("x" : str, VInt 1); ("y" : str, VInt 2)]
  = "A(x=?, y=?)".
Proof.
  assert (Hne : [("x" : str, VInt 1); ("y" : str, VInt 2)] <> [])
    by discriminate.
  exact (proj1 (repr_text (fun _ => lit "?") "A"
                  [("x" : str, VInt 1); ("y" : str, VInt 2)]) Hne).
Defined.

End RecordMore.

(** ** The tag registry: decoding, encoding, several registrations *)

Section RegistryMore.
Import DynRecord Registry.

Lemma construct_object_register_same (k : kind) (Cls : pyclass)
  (reg : registry) (ld : loader) (n : node) :
  node_tag n = class_tag Cls ->
  construct_object (yaml_register k Cls reg) ld n = constructor_of k Cls ld n.
Proof.
  intros Htag. unfold construct_object.
  rewrite constructors_yaml_register, Htag, dict_get_set_same. reflexivity.
Qed.

Lemma construct_object_register_other (k : kind) (Cls : pyclass)
  (reg : registry) (ld : loader) (n : node) :
  node_tag n <> class_tag Cls ->
  construct_object (yaml_register k Cls reg) ld n = construct_object reg ld n.
Proof.
  intros Htag. unfold construct_object.
  rewrite constructors_yaml_register, dict_get_set_other by exact Htag.
  reflexivity.
Qed.

(** X14: what a mapping class decodes to.  For a node that carries the tag
    of a class registered with [yaml_map] and that the loader builds into
    the mapping [m], construction returns [Cls.from_map(m)] when [from_map]
    is a classmethod and [Cls().from_map(m)] when it is a normal method; it
    raises [AttributeError] when the class has no [from_map], and passes on
    the error of the loader, without calling the class, when the node cannot
    be built into a mapping.  The same holds of [yaml_seq] and [from_seq]. *)
Theorem map_and_seq_constructors_call_their_method
  (Cls : pyclass) (reg : registry) (ld : loader) (n : node)
  (Htag : node_tag n = class_tag Cls) :
  (forall m,
     construct_mapping ld n = Ok m ->
     construct_object (yaml_map Cls reg) ld n =
     match from_map Cls with
     | NoAttr => Raise (AttributeError "from_map")
     | ClassMethod f => f (VDict m)
     | PlainMethod g => self <- cls_new Cls ;; g self (VDict m)
     end) /\
  (forall e,
     construct_mapping ld n = Raise e ->
     construct_object (yaml_map Cls reg) ld n = Raise e) /\
  (forall l,
     construct_sequence ld n = Ok l ->
     construct_object (yaml_seq Cls reg) ld n =
     match from_seq Cls with
     | NoAttr => Raise (AttributeError "from_seq")
     | ClassMethod f => f (VList l)
     | PlainMethod g => self <- cls_new Cls ;; g self (VList l)
     end) /\
  (forall e,
     construct_sequence ld n = Raise e ->
     construct_object (yaml_seq Cls reg) ld n = Raise e).
Proof.
  pose proof (construct_object_register_same Map Cls reg ld n Htag) as Hm.
  pose proof (construct_object_register_same Sequence Cls reg ld n Htag) as Hs.
  simpl in Hm, Hs. rewrite Hm, Hs.
  unfold map_constructor, seq_constructor. repeat split.
  - intros m ->. simpl. destruct (from_map Cls); reflexivity.
  - intros e ->. reflexivity.
  - intros l ->. simpl. destruct (from_seq Cls); reflexivity.
  - intros e ->. reflexivity.
Qed.

Lemma map_and_seq_constructors_call_their_method_witness :
  construct_object (yaml_map (map_class 1 (VInt 1)) empty_registry)
    scalar_loader (MappingNode "!A" []) = Ok (VInt 1).
Proof.
  exact (proj1 (map_and_seq_constructors_call_their_method
                  (map_class 1 (VInt 1)) empty_registry scalar_loader
                  (MappingNode "!A" []) eq_refl) [] eq_refl).
Defined.

(** X15: a registration concerns its own tag only.  Nodes that carry
    another tag are constructed after [yaml_map], [yaml_seq], [yaml_scalar]
    or [yaml_not_available_tag] as they were before. *)
Theorem registration_leaves_other_tags
  (k : kind) (Cls : pyclass) (tag reason : str)
  (reg : registry) (ld : loader) (n : node) :
  (node_tag n <> class_tag Cls ->
   construct_object (yaml_register k Cls reg) ld n
   = construct_object reg ld n) /\
  (node_tag n <> lit "!" ++ tag ->
   construct_object (yaml_not_available_tag tag reason reg) ld n
   = construct_object reg ld n).
Proof.
  split.
  - apply construct_object_register_other.
  - intros Htag. unfold construct_object, yaml_not_available_tag,
      add_constructor. simpl.
    rewrite dict_get_set_other by exact Htag. reflexivity.
Qed.

Lemma registration_leaves_other_tags_witness :
  construct_object
    (yaml_scalar plain_scalar_class
       (yaml_map (map_class 1 (VInt 1)) empty_registry))
    scalar_loader (MappingNode "!A" [])
  = construct_object (yaml_map (map_class 1 (VInt 1)) empty_registry)
      scalar_loader (MappingNode "!A" []).
Proof.
  assert (Hne : node_tag (MappingNode "!A" []) <> class_tag plain_scalar_class)
    by discriminate.
  exact (proj1 (registration_leaves_other_tags Scalar plain_scalar_class
                  "" "" (yaml_map (map_class 1 (VInt 1)) empty_registry)
                  scalar_loader (MappingNode "!A" [])) Hne).
Defined.

(** X16: registrations under different tags commute: whichever of two
    classes is decorated first, every node is constructed the same way
    afterwards. *)
Theorem registrations_of_different_tags_commute
  (k1 k2 : kind) (Cls1 Cls2 : pyclass)
  (reg : registry) (ld : loader) (n : node)
  (Hdiff : class_tag Cls1 <> class_tag Cls2) :
  construct_object (yaml_register k2 Cls2 (yaml_register k1 Cls1 reg)) ld n =
  construct_object (yaml_register k1 Cls1 (yaml_register k2 Cls2 reg)) ld n.
Proof.
  destruct (list_eq_dec ascii_dec (node_tag n) (class_tag Cls1)) as [E1|N1];
    destruct (list_eq_dec ascii_dec (node_tag n) (class_tag Cls2)) as [E2|N2].
  - congruence.
  - rewrite (construct_object_register_other k2) by exact N2.
    rewrite !(construct_object_register_same k1) by exact E1. reflexivity.
  - rewrite (construct_object_register_same k2) by exact E2.
    rewrite (construct_object_register_other k1) by exact N1.
    rewrite (construct_object_register_same k2) by exact E2. reflexivity.
  - rewrite (construct_object_register_other k2) by exact N2.
    rewrite !(construct_object_register_other k1) by exact N1.
    rewrite (construct_object_register_other k2) by exact N2. reflexivity.
Qed.

Lemma registrations_of_different_tags_commute_witness :
  construct_object
    (yaml_scalar plain_scalar_class
       (yaml_map (map_class 1 (VInt 1)) empty_registry))
    scalar_loader (MappingNode "!A" [])
  = construct_object
      (yaml_map (map_class 1 (VInt 1))
         (yaml_scalar plain_scalar_class empty_registry))
      scalar_loader (MappingNode "!A" []).
Proof.
  assert (Hne : class_tag (map_class 1 (VInt 1))
                <> class_tag plain_scalar_class) by discriminate.
  exact (registrations_of_different_tags_commute Map Scalar
           (map_class 1 (VInt 1)) plain_scalar_class empty_registry
           scalar_loader (MappingNode "!A" []) Hne).
Defined.

Lemma repr_get_set_same (t : list (nat * representer)) (k : nat)
  (r : representer) :
  repr_get (repr_set t k r) k = Some r.
Proof.
  induction t as [|[k' r'] t IH]; simpl.
  - rewrite Nat.eqb_refl. reflexivity.
  - destruct (Nat.eqb k' k) eqn:E; simpl; rewrite E; [reflexivity | exact IH].
Qed.

Lemma repr_get_set_other (t : list (nat * representer)) (k k' : nat)
  (r : representer) :
  k' <> k -> repr_get (repr_set t k r) k' = repr_get t k'.
Proof.
  intros Hne. induction t as [|[k0 r0] t IH]; simpl.
  - destruct (Nat.eqb k k') eqn:E; [|reflexivity].
    apply Nat.eqb_eq in E. congruence.
  - destruct (Nat.eqb k0 k) eqn:E; simpl.
    + destruct (Nat.eqb k0 k') eqn:E'; [|reflexivity].
      apply Nat.eqb_eq in E, E'. congruence.
    + rewrite IH. reflexivity.
Qed.

Lemma representers_yaml_register (k : kind) (Cls : pyclass) (reg : registry) :
  yaml_representers (yaml_register k Cls reg) =
  repr_set (yaml_representers reg) (cls_id Cls) (representer_of k Cls).
Proof. destruct k; reflexivity. Qed.

(** X17: a scalar class reads back what it writes.  After [yaml_scalar],
    with [from_scalar] a classmethod, the representer found for an instance
    calls [to_scalar] and emits a scalar node carrying the tag of the class
    and the text returned, and constructing that node calls [from_scalar] on
    this very text, provided the dumper puts tag and text in a scalar node
    and the loader gives the text of a scalar node back, as PyYAML's do. *)
Theorem scalar_class_reads_back_what_it_writes
  (Cls : pyclass) (reg : registry) (ld : loader) (dm : dumper)
  (enc : value -> result value) (f : value -> result value)
  (data : value) (text : str)
  (Henc : to_scalar Cls = Some enc)
  (Hdata : enc data = Ok (VStr text))
  (Hdec : from_scalar Cls = ClassMethod f)
  (Hdump : represent_scalar dm (class_tag Cls) (VStr text)
           = Ok (ScalarNode (class_tag Cls) text))
  (Hload : construct_scalar ld (ScalarNode (class_tag Cls) text) = Ok text) :
  let reg' := yaml_scalar Cls reg in
  find_representer reg' Cls = Some (scalar_representer Cls) /\
  scalar_representer Cls dm data = Ok (ScalarNode (class_tag Cls) text) /\
  construct_object reg' ld (ScalarNode (class_tag Cls) text) = f (VStr text).
Proof.
  intros reg'. unfold reg'. repeat split.
  - unfold find_representer.
    rewrite (representers_yaml_register Scalar). apply repr_get_set_same.
  - unfold scalar_representer, call_encoder.
    rewrite Henc, Hdata. simpl. exact Hdump.
  - rewrite (construct_object_register_same Scalar) by reflexivity.
    apply scalar_constructor_classmethod; assumption.
Qed.

Lemma scalar_class_reads_back_what_it_writes_witness :
  let data := VRec [("degrees" : str, VStr "294.65")] in
  construct_object (yaml_scalar round_trip_scalar_class empty_registry)
    scalar_loader (ScalarNode "!Kelvin" "294.65") = Ok data /\
  scalar_representer round_trip_scalar_class text_dumper data
    = Ok (ScalarNode "!Kelvin" "294.65").
Proof.
  pose proof (scalar_class_reads_back_what_it_writes
                round_trip_scalar_class empty_registry scalar_loader
                text_dumper _ _ (VRec [("degrees" : str, VStr "294.65")])
                "294.65" eq_refl eq_refl eq_refl eq_refl eq_refl)
    as (_ & Hwrite & Hread).
  split; [exact Hread | exact Hwrite].
Defined.

(** X18: writing goes by class, reading by tag.  When two different classes
    have the same tag and the second is decorated after the first, both keep
    their representer, so instances of the first are still written under
    the tag, while nodes with the tag are constructed by the second class. *)
Theorem same_tag_written_by_both_read_by_last
  (k1 k2 : kind) (Cls1 Cls2 : pyclass)
  (reg : registry) (ld : loader) (n : node)
  (Hid : cls_id Cls1 <> cls_id Cls2)
  (Hsame : class_tag Cls1 = class_tag Cls2)
  (Htag : node_tag n = class_tag Cls1) :
  let reg2 := yaml_register k2 Cls2 (yaml_register k1 Cls1 reg) in
  find_representer reg2 Cls1 = Some (representer_of k1 Cls1) /\
  find_representer reg2 Cls2 = Some (representer_of k2 Cls2) /\
  construct_object reg2 ld n = constructor_of k2 Cls2 ld n.
Proof.
  intros reg2. unfold reg2, find_representer.
  rewrite !representers_yaml_register. repeat split.
  - rewrite repr_get_set_other by exact Hid. apply repr_get_set_same.
  - apply repr_get_set_same.
  - apply construct_object_register_same. congruence.
Qed.

Lemma same_tag_written_by_both_read_by_last_witness :
  construct_object
    (yaml_map (map_class 2 (VInt 2))
       (yaml_map (map_class 1 (VInt 1)) empty_registry))
    scalar_loader (MappingNode "!A" []) = Ok (VInt 2).
Proof.
  assert (Hid : cls_id (map_class 1 (VInt 1)) <> cls_id (map_class 2 (VInt 2)))
    by discriminate.
  pose proof (same_tag_written_by_both_read_by_last Map Map
                (map_class 1 (VInt 1)) (map_class 2 (VInt 2))
                empty_registry scalar_loader (MappingNode "!A" [])
                Hid eq_refl eq_refl) as (_ & _ & H).
  exact H.
Defined.

(** *** Tags *)

Lemma lstrip_underscore_split (s : str) :
  exists n, s = repeat "_"%char n ++ lstrip_underscore s.
Proof.
  induction s as [|c s [n IH]]; [exists 0; reflexivity|].
  simpl. destruct (Ascii.eqb c "_") eqn:E.
  - apply Ascii.eqb_eq in E. subst c. exists (S n). simpl. f_equal. exact IH.
  - exists 0. reflexivity.
Qed.

Lemma lstrip_underscore_head (s : str) :
  match lstrip_underscore s with
  | [] => True
  | c :: _ => c <> "_"%char
  end.
Proof.
  induction s as [|c s IH]; simpl; [exact I|].
  destruct (Ascii.eqb c "_") eqn:E; [exact IH|].
  apply Ascii.eqb_neq. exact E.
Qed.

Lemma lstrip_underscore_repeat (n : nat) (s : str) :
  lstrip_underscore (repeat "_"%char n ++ s) = lstrip_underscore s.
Proof. induction n as [|n IH]; [reflexivity | exact IH]. Qed.

(** X19: the tag of a class.  The attribute looked up for an explicit tag is
    an underscore, the class name without the underscores it starts with, and
    [__yaml_tag]; so two classes whose names differ in leading underscores
    only are asked for the same attribute.  When the class has that
    attribute the tag is ["!"] followed by its value, otherwise ["!"]
    followed by the class name as it is, leading underscores included. *)
Theorem class_tag_from_attribute_or_name (Cls Cls' : pyclass) (n : nat)
  (Hname : cls_name Cls' = repeat "_"%char n ++ cls_name Cls) :
  (exists m stem,
     cls_name Cls = repeat "_"%char m ++ stem /\
     match stem with [] => True | c :: _ => c <> "_"%char end /\
     yaml_tag_mangle Cls = lit "_" ++ stem ++ lit "__yaml_tag") /\
  yaml_tag_mangle Cls' = yaml_tag_mangle Cls /\
  (forall t, cls_attr Cls (yaml_tag_mangle Cls) = Some t ->
             class_tag Cls = lit "!" ++ t) /\
  (cls_attr Cls (yaml_tag_mangle Cls) = None ->
   class_tag Cls = lit "!" ++ cls_name Cls).
Proof.
  split; [|split; [|split]].
  - destruct (lstrip_underscore_split (cls_name Cls)) as [m Hm].
    exists m, (lstrip_underscore (cls_name Cls)).
    split; [exact Hm|]. split; [apply lstrip_underscore_head | reflexivity].
  - unfold yaml_tag_mangle. rewrite Hname, lstrip_underscore_repeat.
    reflexivity.
  - intros t Ht. unfold class_tag. rewrite Ht. reflexivity.
  - intros Hnone. unfold class_tag. rewrite Hnone. reflexivity.
Qed.

Lemma class_tag_from_attribute_or_name_witness :
  yaml_tag_mangle (named_class "__Legacy" (fun _ => None))
  = yaml_tag_mangle (named_class "Legacy" (fun _ => None)) /\
  class_tag (named_class "Legacy" (fun _ => None)) = "!Legacy".
Proof.
  pose proof (class_tag_from_attribute_or_name
                (named_class "Legacy" (fun _ => None))
                (named_class "__Legacy" (fun _ => None)) 2 eq_refl)
    as (_ & Hmangle & _ & Hname).
  split; [exact Hmangle | exact (Hname eq_refl)].
Defined.

End RegistryMore.
